(** * homework_bot: a shallow embedding of [homework.py]

    The bot polls a homework-review API, validates the decoded answer,
    formats the status of the first homework and relays it to a chat.
    The embedding follows the Python source function by function:

    - JSON-decoded Python objects are the inductive type [value]
      (dictionaries are finite maps from strings, [gmap string value]);
    - exceptions are a class and an argument, [exn]; a computation yields
      an [outcome] (a returned value, a raised exception, or the process
      exit started by [exit()]) together with the list of observable
      [event]s it performed (log calls, HTTP request, chat message, sleep);
    - the two libraries ([requests], [telegram]) and the clock are an
      environment that supplies what each call does in each cycle;
    - the [while True] loop of [main] is run over a finite list of such
      per-cycle environments. *)

From Stdlib Require Import ZArith String Ascii List Floats.SpecFloat.
From stdpp Require Import gmap strings list fin_maps pretty.

Set Warnings "-register-all".
Open Scope string_scope.

(** ** Python values *)

(** What [response.json()] can produce, and [None]. *)
Inductive value : Type :=
| VNone
| VBool (b : bool)
| VInt (z : Z)
| VFloat (f : spec_float)
| VStr (s : string)
| VList (l : list value)
| VDict (d : gmap string value).

(** [type(v).__name__] *)
Definition type_name (v : value) : string :=
  match v with
  | VNone => "NoneType"
  | VBool _ => "bool"
  | VInt _ => "int"
  | VFloat _ => "float"
  | VStr _ => "str"
  | VList _ => "list"
  | VDict _ => "dict"
  end.

(** Truth value testing, as in [if v:] and [not v]. *)
Definition py_truthy (v : value) : bool :=
  match v with
  | VNone => false
  | VBool b => b
  | VInt z => negb (z =? 0)%Z
  | VFloat f => match f with S754_zero _ => false | _ => true end
  | VStr s => negb (String.eqb s "")
  | VList l => match l with [] => false | _ :: _ => true end
  | VDict d => negb (bool_decide (d = ∅))
  end.

(** [isinstance(v, dict)] and [isinstance(v, list)] *)
Definition is_dict (v : value) : bool :=
  match v with VDict _ => true | _ => false end.

Definition is_list (v : value) : bool :=
  match v with VList _ => true | _ => false end.

(** Lists and dictionaries are the unhashable values. *)
Definition hashable (v : value) : bool :=
  match v with VList _ | VDict _ => false | _ => true end.

(** ** Exceptions *)

(** The classes the program tells apart. All derive from [Exception];
    [RequestException] stands for [requests.RequestException] and its
    subclasses, [OtherException] for any class not listed. *)
Inductive exn_class : Type :=
| Exception_
| RequestException
| TypeError
| KeyError
| AttributeError
| UnboundLocalError
| OtherException (name : string).

Record exn : Type := Exn { exn_cls : exn_class; exn_arg : value }.

(** Errors raised by the interpreter itself; their wording belongs to the
    interpreter version. *)
Inductive interp_error : Type :=
| NotIterable (ty : string)          (* [x in v], v of a non-container type *)
| Unhashable (ty : string)           (* a list or dict used as a dict key *)
| NoAttribute (ty attr : string)     (* [v.get], v not a dict *)
| NotSubscriptable (ty : string)     (* [v[k]], v not a container *)
| BadIndex (ty : string)             (* [v[k]], v a list or str and k a str *)
| UnboundLocal (var : string).       (* a local read before assignment *)

(** The part of the Python runtime the program relies on without
    defining it: [repr] of a value and the text of interpreter errors. *)
Class PyRuntime : Type := {
  py_repr : value → string;
  interp_msg : interp_error → string
}.

Inductive outcome (A : Type) : Type :=
| Return (a : A)
| Raise (e : exn)
| Exit.                 (* [SystemExit], which [except Exception] lets through *)
Arguments Return {A} a.
Arguments Raise {A} e.
Arguments Exit {A}.

(** ** Observable events *)

Inductive level : Type := DEBUG | INFO | ERROR | CRITICAL.

#[export] Instance level_eq_dec : EqDecision level.
Proof. solve_decision. Defined.

Inductive event : Type :=
| Log (lvl : level) (text : string)          (* logging.debug/error/critical *)
| HttpGet (params : value)                    (* requests.get(ENDPOINT, ...) *)
| TgSend (chat : option string) (text : string)  (* bot.send_message *)
| Sleep (secs : Z).                           (* time.sleep *)

(** A computation: the events performed, in order, and how it ended. *)
Definition M (A : Type) : Type := (list event * outcome A)%type.

Definition events_of {A} (m : M A) : list event := fst m.
Definition result {A} (m : M A) : outcome A := snd m.

#[export] Instance M_ret : MRet M := λ A a, ([], Return a).

#[export] Instance M_bind : MBind M := λ A B k m,
  match m with
  | (tr, Return a) => let '(tr', r) := k a in ((tr ++ tr')%list, r)
  | (tr, Raise e) => (tr, Raise e)
  | (tr, Exit) => (tr, Exit)
  end.

#[export] Instance M_throw : MThrow exn M := λ A e, ([], Raise e).

(** [try: body / except Exception as e: handler e] *)
Definition try_except {A} (body : M A) (handler : exn → M A) : M A :=
  match body with
  | (tr, Raise e) => let '(tr', r) := handler e in ((tr ++ tr')%list, r)
  | _ => body
  end.

(** [try: body / finally: cleanup] *)
Definition try_finally {A} (body : M A) (cleanup : list event) : M A :=
  ((events_of body ++ cleanup)%list, result body).

Definition emit (ev : event) : M unit := ([ev], Return tt).


(** ** String helpers *)

Definition dquote : string := String "034" EmptyString.

(** [needle in hay] for two [str]: substring test. *)
Fixpoint contains_str (needle hay : string) : bool :=
  String.prefix needle hay ||
  match hay with
  | EmptyString => false
  | String _ hay' => contains_str needle hay'
  end.

(** [part] occurs inside [whole]. *)
Definition occurs_in (part whole : string) : Prop :=
  ∃ before after, whole = before ++ part ++ after.

Section Program.
Context `{PyRuntime}.

(** [str(v)] and [f'{v}']: a [str] as it is, anything else by its [repr]. *)
Definition py_str (v : value) : string :=
  match v with VStr s => s | _ => py_repr v end.

(** [str(e)]: [KeyError] shows the [repr] of its argument. *)
Definition str_exn (e : exn) : string :=
  match exn_cls e with
  | KeyError => py_repr (exn_arg e)
  | _ => py_str (exn_arg e)
  end.

Definition raised (cls : exn_class) (msg : string) : exn := Exn cls (VStr msg).

Definition interp_raise {A} (cls : exn_class) (err : interp_error) : M A :=
  mthrow (raised cls (interp_msg err)).

(** ** Operators on values *)

(** [key in v] for a [str] key. *)
Definition py_in (key : string) (v : value) : M bool :=
  match v with
  | VDict d => mret (bool_decide (is_Some (d !! key)))
  | VList l =>
      mret (existsb (λ x, match x with VStr s => String.eqb s key | _ => false end) l)
  | VStr s => mret (contains_str key s)
  | _ => interp_raise TypeError (NotIterable (type_name v))
  end.

(** [v.get(key)] *)
Definition py_get (v : value) (key : string) : M value :=
  match v with
  | VDict d => mret (default VNone (d !! key))
  | _ => interp_raise AttributeError (NoAttribute (type_name v) "get")
  end.

(** [v[key]] for a [str] key. *)
Definition py_getitem (v : value) (key : string) : M value :=
  match v with
  | VDict d =>
      match d !! key with
      | Some x => mret x
      | None => mthrow (Exn KeyError (VStr key))
      end
  | VList _ | VStr _ => interp_raise TypeError (BadIndex (type_name v))
  | _ => interp_raise TypeError (NotSubscriptable (type_name v))
  end.

(** [v[0]]: the first element of a list, the first character of a [str]
    (strings are held as UTF-8 bytes). *)
Definition utf8_width (c : ascii) : nat :=
  let n := nat_of_ascii c in
  if Nat.ltb n 192 then 1 else if Nat.ltb n 224 then 2
  else if Nat.ltb n 240 then 3 else 4.

Definition py_first (v : value) : M value :=
  match v with
  | VList (x :: _) => mret x
  | VList [] =>
      mthrow (raised (OtherException "IndexError") "list index out of range")
  | VStr (String c _ as s) => mret (VStr (substring 0 (utf8_width c) s))
  | VStr EmptyString =>
      mthrow (raised (OtherException "IndexError") "string index out of range")
  | VDict _ => mthrow (Exn KeyError (VInt 0))
  | _ => interp_raise TypeError (NotSubscriptable (type_name v))
  end.

(** ** Constants of the module *)

Definition RETRY_PERIOD : Z := 600.

Definition HOMEWORK_VERDICTS : gmap string string :=
  <["approved" := "Работа проверена: ревьюеру всё понравилось. Ура!"]>
  (<["reviewing" := "Работа взята на проверку ревьюером."]>
  (<["rejected" := "Работа проверена: у ревьюера есть замечания."]> ∅)).

(** [HOMEWORK_VERDICTS.get(k)]: the key is hashed first. *)
Definition verdicts_get (k : value) : M value :=
  match k with
  | VStr s => mret (default VNone (VStr <$> HOMEWORK_VERDICTS !! s))
  | VList _ | VDict _ => interp_raise TypeError (Unhashable (type_name k))
  | _ => mret VNone
  end.

(** ** check_response *)

Definition check_response (response : value) : M value :=
  if negb (is_dict response) then
    mthrow (raised TypeError
      ("Неправильный тип данных ответа сервера: <class '"
       ++ type_name response ++ "'>"))
  else
    has ← py_in "homeworks" response;
    if negb has then
      mthrow (raised KeyError
        ("Ответ сервера не содержит ключ " ++ dquote ++ "homeworks" ++ dquote
         ++ ": " ++ py_str response))
    else
      item ← py_getitem response "homeworks";
      if negb (is_list item) then
        mthrow (raised TypeError
          ("В ответе API домашки под ключом `homeworks`"
           ++ " данные приходят не в виде списка."))
      else
        homework ← py_get response "homeworks";
        mret homework.

(** ** parse_status *)

Definition no_name_msg : string := "В ответе API домашки нет ключа `homework_name`.".
Definition no_status_msg : string := "В ответе API домашки нет ключа `status`.".
Definition bad_status_msg : string :=
  "API домашки возвращает недокументированный статус" ++ " домашней работы.".

Definition status_message (homework_name verdict : value) : string :=
  "Изменился статус проверки работы " ++ dquote ++ py_str homework_name
  ++ dquote ++ ". " ++ py_str verdict.

Definition parse_status (homework : value) : M string :=
  has_name ← py_in "homework_name" homework;
  if negb has_name then mthrow (raised KeyError no_name_msg)
  else
    has_status ← py_in "status" homework;
    if negb has_status then mthrow (raised KeyError no_status_msg)
    else
      status ← py_get homework "status";
      verdict ← verdicts_get status;
      if negb (py_truthy verdict) then mthrow (raised KeyError bad_status_msg)
      else
        homework_name ← py_getitem homework "homework_name";
        mret (status_message homework_name verdict).

(** ** Configuration and environment *)

(** The three module globals read with [os.getenv]: [None] when unset. *)
Record config : Type := {
  PRACTICUM_TOKEN : option string;
  TELEGRAM_TOKEN : option string;
  TELEGRAM_CHAT_ID : option string
}.

Definition getenv_value (t : option string) : value :=
  match t with Some s => VStr s | None => VNone end.

(** What [requests.get] hands back: the fields of the response the
    program reads; [json] is what [response.json()] does. *)
Record http_response : Type := {
  status_code : Z;
  request_url : string;
  json : exn + value
}.

(** What the outside world does during one cycle of the loop. *)
Record cycle_env : Type := {
  http_get : value → exn + http_response;   (* by the [params] sent *)
  tg_send_ok : string → bool                (* does [bot.send_message] succeed *)
}.

(** What the outside world does at startup. *)
Record startup_env : Type := {
  bot_ctor : option exn;    (* [telegram.Bot(token=...)] raising *)
  now : Z                   (* [int(time.time())] *)
}.

(** ** check_tokens *)

Definition LST_NOT_NULL (cfg : config) : list value :=
  [getenv_value (PRACTICUM_TOKEN cfg); getenv_value (TELEGRAM_TOKEN cfg);
   getenv_value (TELEGRAM_CHAT_ID cfg)].

Definition LST_NOT_NULL_STRING : list string :=
  ["PRACTICUM_TOKEN"; "TELEGRAM_TOKEN"; "TELEGRAM_CHAT_ID"].

Definition missing_msg (name : string) : string :=
  "Отсутствует обязательная переменная " ++ name.

(** The body of [for i in range(len(LST_NOT_NULL))]. *)
Definition check_token_at (cfg : config) (i : nat) : list event :=
  match LST_NOT_NULL cfg !! i, LST_NOT_NULL_STRING !! i with
  | Some v, Some name =>
      if negb (py_truthy v) then [Log CRITICAL (missing_msg name)] else []
  | _, _ => []
  end.

Definition check_tokens (cfg : config) : M value :=
  if negb (forallb py_truthy (LST_NOT_NULL cfg)) then
    (flat_map (check_token_at cfg) (seq 0 (length (LST_NOT_NULL cfg))), Exit)
  else
    emit (Log DEBUG "Проверка ключей закончилась успешно");;
    mret VNone.

(** ** send_message *)

Definition send_message (cfg : config) (env : cycle_env) (message : string) : M unit :=
  emit (TgSend (TELEGRAM_CHAT_ID cfg) message);;
  if tg_send_ok env message then emit (Log DEBUG "Сообщение отправлено")
  else emit (Log ERROR "Сбой при отправке сообщения").

(** ** get_api_answer *)

Definition bad_url_msg (url : string) : string := "Сбой при обращении к URL " ++ url.
Definition no_form_date_msg : string := "Отсутствует параметр `form_date`".

(** The [try] block: the events performed, the local [response_data] if
    it was assigned, and how the block ended. *)
Definition get_api_answer_try (env : cycle_env) (timestamp : value)
  : list event * option value * outcome unit :=
  match http_get env timestamp with
  | inl e => ([HttpGet timestamp], None, Raise e)
  | inr response =>
      if negb (status_code response =? 200)%Z then
        ([HttpGet timestamp], None,
         Raise (raised Exception_ (bad_url_msg (request_url response))))
      else
        let tr := [HttpGet timestamp; Log DEBUG "Ответ от сервера получен"] in
        match json response with
        | inl e => (tr, None, Raise e)
        | inr response_data =>
            match result (py_in "form_date" response_data) with
            | Return has =>
                if negb has then
                  (tr, Some response_data, Raise (raised Exception_ no_form_date_msg))
                else (tr, Some response_data, Return tt)
            | Raise e => (tr, Some response_data, Raise e)
            | Exit => (tr, Some response_data, Exit)
            end
        end
  end.

(** The two [except] clauses. *)
Definition get_api_answer_except (e : exn) : M unit :=
  match exn_cls e with
  | RequestException => emit (Log ERROR ("Ошибка отправки запроса. " ++ str_exn e))
  | _ => emit (Log ERROR ("Произошла ошибка: " ++ str_exn e))
  end.

Definition get_api_answer (env : cycle_env) (timestamp : value) : M value :=
  let '(tr, response_data, ended) := get_api_answer_try env timestamp in
  try_except ((tr, ended) : M unit) get_api_answer_except;;
  match response_data with
  | Some v => mret v
  | None => interp_raise UnboundLocalError (UnboundLocal "response_data")
  end.

(** ** main *)

(** The two variables the loop carries from cycle to cycle: the cursor
    [timestamp] and [last_send['error']]. *)
Record loop_state : Type := {
  timestamp : value;
  last_send_error : option string
}.

Definition failure_message (error : exn) : string :=
  "Сбой в работе программы: " ++ str_exn error.

(** The [try] block of the loop; it yields the new [timestamp]. *)
Definition cycle_try (cfg : config) (env : cycle_env) (st : loop_state) : M value :=
  response ← get_api_answer env (timestamp st);
  homework ← check_response response;
  (if py_truthy homework then
     first ← py_first homework;
     homework_status ← parse_status first;
     send_message cfg env homework_status
   else
     homework_status ← parse_status homework;
     mret tt);;
  py_getitem response "form_date".

(** The [except Exception as error] clause of the loop. *)
Definition cycle_except (cfg : config) (env : cycle_env) (st : loop_state)
    (error : exn) : M loop_state :=
  let message := failure_message error in
  if bool_decide (last_send_error st ≠ Some message) then
    send_message cfg env message;;
    mret {| timestamp := timestamp st; last_send_error := Some message |}
  else mret st.

(** One turn of [while True]. *)
Definition cycle (cfg : config) (env : cycle_env) (st : loop_state) : M loop_state :=
  try_finally
    (try_except
       (ts ← cycle_try cfg env st;
        mret {| timestamp := ts; last_send_error := last_send_error st |})
       (cycle_except cfg env st))
    [Sleep RETRY_PERIOD].

(** The loop, run for as many cycles as there are environments. *)
Fixpoint main_loop (cfg : config) (envs : list cycle_env) (st : loop_state)
  : M loop_state :=
  match envs with
  | [] => mret st
  | env :: rest => st' ← cycle cfg env st; main_loop cfg rest st'
  end.

Definition initial_state (start : startup_env) : loop_state :=
  {| timestamp := VInt (now start); last_send_error := None |}.

Definition main (cfg : config) (start : startup_env) (envs : list cycle_env)
  : M loop_state :=
  tokens ← check_tokens cfg;
  (if negb (py_truthy tokens) then
     emit (Log CRITICAL "Отсутствуют обязательные переменные")
   else mret tt);;
  (match bot_ctor start with Some e => mthrow e | None => mret tt end);;
  main_loop cfg envs (initial_state start).

End Program.

(** ** Reading a trace *)

(** The texts handed to the notifier, in order. *)
Definition sent (tr : list event) : list string :=
  omap (λ ev, match ev with TgSend _ text => Some text | _ => None end) tr.

(** The texts logged at a given level, in order. *)
Definition logged (lvl : level) (tr : list event) : list string :=
  omap (λ ev, match ev with
              | Log l text => if bool_decide (l = lvl) then Some text else None
              | _ => None
              end) tr.

(** Calls that reach the network. *)
Definition is_network (ev : event) : bool :=
  match ev with HttpGet _ | TgSend _ _ => true | _ => false end.

(** A computation fails with an exception of class [cls]. *)
Definition fails_with {A} (m : M A) (cls : exn_class) : Prop :=
  ∃ arg, result m = Raise (Exn cls arg).

(** The request raises, or is answered with a status other than 200. *)
Definition fetch_fails (env : cycle_env) (ts : value) : Prop :=
  (∃ e, http_get env ts = inl e)
  ∨ (∃ r, http_get env ts = inr r ∧ status_code r ≠ 200%Z).

(** The request is answered with status 200 and a body that decodes to
    [body]. *)
Definition fetch_gives (env : cycle_env) (ts : value) (body : value) : Prop :=
  ∃ r, http_get env ts = inr r ∧ status_code r = 200%Z ∧ json r = inr body.

(** The request is answered with status 200 and a dict whose [homeworks]
    entry is the empty list. *)
Definition answers_no_homework (ts : value) (env : cycle_env) : Prop :=
  ∃ d, fetch_gives env ts (VDict d) ∧ d !! "homeworks" = Some (VList []).

(** A configuration value is absent or empty. *)
Definition unset (t : option string) : Prop := t = None ∨ t = Some "".

(** What reading the unassigned local [response_data] raises. *)
Definition unbound_response_data `{PyRuntime} : exn :=
  raised UnboundLocalError (interp_msg (UnboundLocal "response_data")).

(** The notifications that report a failure of the program. *)
Definition is_failure_text (text : string) : bool :=
  String.prefix "Сбой в работе программы: " text.

Definition failure_sent (tr : list event) : list string :=
  filter (λ text, is_failure_text text = true) (sent tr).

(** A computation without events that does not end the process. *)
Definition pure {A} (m : M A) : Prop := events_of m = [] ∧ result m ≠ Exit.

(** A computation that sends no failure notification and does not end the
    process. *)
Definition quiet {A} (m : M A) : Prop :=
  failure_sent (events_of m) = [] ∧ result m ≠ Exit.

(** The notifications that report a status. *)
Definition status_sent (tr : list event) : list string :=
  filter (λ text, is_failure_text text = false) (sent tr).

(** The [params] of the requests made, and the lengths of the sleeps. *)
Definition requests_made (tr : list event) : list value :=
  omap (λ ev, match ev with HttpGet params => Some params | _ => None end) tr.

Definition sleeps (tr : list event) : list Z :=
  omap (λ ev, match ev with Sleep secs => Some secs | _ => None end) tr.

(** Two computations hand the same texts to the notifier and end alike. *)
Definition alike {A} (m m' : M A) : Prop :=
  sent (events_of m) = sent (events_of m') ∧ result m = result m'.

(** A computation none of whose events is kept by the projection [f]. *)
Definition mute {A B} (f : event → option B) (m : M A) : Prop :=
  omap f (events_of m) = [].

(** No text of [l] equals the one before it, [prev] coming first. *)
Fixpoint no_repeat (prev : option string) (l : list string) : Prop :=
  match l with
  | [] => True
  | text :: l' => prev ≠ Some text ∧ no_repeat (Some text) l'
  end.

(** A homework record [parse_status] has a message for: a dict with a
    name and one of the three status codes. *)
Definition accepted_record (homework : value) : Prop :=
  ∃ d name code,
    homework = VDict d
    ∧ d !! "homework_name" = Some name
    ∧ d !! "status" = Some (VStr code)
    ∧ (code = "approved" ∨ code = "reviewing" ∨ code = "rejected").

(** The request is not answered with status 200 and a body that decodes. *)
Definition fetch_broken (env : cycle_env) (ts : value) : Prop :=
  ¬ ∃ body, fetch_gives env ts body.

(** The request is answered, whatever the cursor, with status 200 and a
    dict whose [homeworks] list starts with [first]. *)
Definition answers_with_first (first : value) (env : cycle_env) : Prop :=
  ∀ ts, ∃ d rest, fetch_gives env ts (VDict d)
                  ∧ d !! "homeworks" = Some (VList (first :: rest)).

(** ** A runtime to run the program on concrete inputs

    The interpreter messages follow CPython 3.11; [repr] is exact on
    [None], booleans and strings free of quotes, backslashes and control
    characters, and abbreviates the rest. *)
Definition reference_repr (v : value) : string :=
  match v with
  | VNone => "None"
  | VBool true => "True"
  | VBool false => "False"
  | VInt z => pretty z
  | VFloat _ => "<float>"
  | VStr s => "'" ++ s ++ "'"
  | VList _ => "[...]"
  | VDict _ => "{...}"
  end.

Definition reference_msg (err : interp_error) : string :=
  match err with
  | NotIterable ty => "argument of type '" ++ ty ++ "' is not iterable"
  | Unhashable ty => "unhashable type: '" ++ ty ++ "'"
  | NoAttribute ty attr => "'" ++ ty ++ "' object has no attribute '" ++ attr ++ "'"
  | NotSubscriptable ty => "'" ++ ty ++ "' object is not subscriptable"
  | BadIndex ty => ty ++ " indices must be integers"
  | UnboundLocal var =>
      "cannot access local variable '" ++ var
      ++ "' where it is not associated with a value"
  end.

Definition reference_runtime : PyRuntime :=
  {| py_repr := reference_repr; interp_msg := reference_msg |}.

(** ** Sample inputs *)

Definition all_set : config :=
  {| PRACTICUM_TOKEN := Some "p-token";
     TELEGRAM_TOKEN := Some "1:t-token";
     TELEGRAM_CHAT_ID := Some "42" |}.

Definition record_of (name status : value) : value :=
  VDict (<["homework_name" := name]> (<["status" := status]> ∅)).

Definition body_of (homeworks : list value) (form_date : Z) : value :=
  VDict (<["homeworks" := VList homeworks]> (<["form_date" := VInt form_date]> ∅)).

(** The server answers 200 with the given decoded body; the chat works. *)
Definition answers (body : value) : cycle_env :=
  {| http_get := λ _, inr {| status_code := 200;
                             request_url := "https://practicum.yandex.ru/api/user_api/homework_statuses/";
                             json := inr body |};
     tg_send_ok := λ _, true |}.

(** The request does not get through. *)
Definition unreachable : cycle_env :=
  {| http_get := λ _, inl (Exn RequestException (VStr "connection refused"));
     tg_send_ok := λ _, true |}.

(** The server answers with the given status. *)
Definition status_only (code : Z) : cycle_env :=
  {| http_get := λ _, inr {| status_code := code;
                             request_url := "https://practicum.yandex.ru/api/user_api/homework_statuses/";
                             json := inr VNone |};
     tg_send_ok := λ _, true |}.

Definition started_at (t : Z) : startup_env := {| bot_ctor := None; now := t |}.

(** The server answers 200 with a body that is not JSON. *)
Definition garbled : cycle_env :=
  {| http_get := λ _, inr {| status_code := 200;
                             request_url := "https://practicum.yandex.ru/api/user_api/homework_statuses/";
                             json := inl (Exn RequestException (VStr "Expecting value")) |};
     tg_send_ok := λ _, true |}.

(** The same answers, with a chat that refuses every message. *)
Definition chat_down (env : cycle_env) : cycle_env :=
  {| http_get := http_get env; tg_send_ok := λ _, false |}.

(** * Properties *)

(** ** The computation monad *)

Lemma bind_ret {A B} (a : A) (k : A → M B) : mret a ≫= k = k a.
Proof. unfold mbind, mret, M_bind, M_ret. by destruct (k a). Qed.

Lemma bind_events {A B} (m : M A) (k : A → M B) a :
  result m = Return a →
  events_of (m ≫= k) = (events_of m ++ events_of (k a))%list
  ∧ result (m ≫= k) = result (k a).
Proof.
  destruct m as [tr r]; simpl; intros ->.
  unfold mbind, M_bind. by destruct (k a).
Qed.

Lemma bind_raise {A B} (m : M A) (k : A → M B) e :
  result m = Raise e → m ≫= k = (events_of m, Raise e).
Proof. destruct m as [tr r]; simpl; by intros ->. Qed.

Lemma bind_pair {A B} tr (a : A) (k : A → M B) :
  ((tr, Return a) : M A) ≫= k = ((tr ++ events_of (k a))%list, result (k a)).
Proof. unfold mbind, M_bind. by destruct (k a). Qed.

Lemma events_bind {A B} (m : M A) (k : A → M B) :
  events_of (m ≫= k)
  = (events_of m ++ match result m with
                    | Return a => events_of (k a)
                    | _ => []
                    end)%list.
Proof.
  destruct m as [tr [a|e|]]; unfold mbind, M_bind; simpl.
  - by destruct (k a).
  - by rewrite app_nil_r.
  - by rewrite app_nil_r.
Qed.

Lemma result_bind {A B} (m : M A) (k : A → M B) :
  result (m ≫= k)
  = match result m with
    | Return a => result (k a)
    | Raise e => Raise e
    | Exit => Exit
    end.
Proof.
  destruct m as [tr [a|e|]]; unfold mbind, M_bind; simpl; try done.
  by destruct (k a).
Qed.

Lemma bind_returns {A B} (m : M A) (k : A → M B) b :
  result (m ≫= k) = Return b →
  ∃ a, result m = Return a ∧ result (k a) = Return b.
Proof. rewrite result_bind. destruct (result m) as [a|e|]; [eauto|done..]. Qed.

Lemma pure_bind {A B} (m : M A) (k : A → M B) :
  pure m → (∀ a, pure (k a)) → pure (m ≫= k).
Proof.
  intros [Hev Hres] Hk. split.
  - rewrite events_bind, Hev. destruct (result m); [apply Hk|done..].
  - rewrite result_bind. destruct (result m); [apply Hk|done..].
Qed.

Lemma pure_eta {A} (m : M A) : pure m → m = ([], result m).
Proof. destruct m as [tr r]. by intros [Hev _]; simpl in *; subst. Qed.

Lemma sent_app tr1 tr2 : sent (tr1 ++ tr2)%list = (sent tr1 ++ sent tr2)%list.
Proof. apply omap_app. Qed.

Lemma failure_sent_app tr1 tr2 :
  failure_sent (tr1 ++ tr2)%list = (failure_sent tr1 ++ failure_sent tr2)%list.
Proof. unfold failure_sent. by rewrite sent_app, filter_app. Qed.

Lemma pure_quiet {A} (m : M A) : pure m → quiet m.
Proof. intros [Hev Hres]. split; [by rewrite Hev|done]. Qed.

Lemma quiet_bind {A B} (m : M A) (k : A → M B) :
  quiet m → (∀ a, result m = Return a → quiet (k a)) → quiet (m ≫= k).
Proof.
  intros [Hev Hres] Hk. split.
  - rewrite events_bind, failure_sent_app, Hev.
    destruct (result m) as [a| |]; [by apply Hk|done..].
  - rewrite result_bind. destruct (result m) as [a| |]; [by apply Hk|done..].
Qed.

Section Properties.
Context `{PyRuntime}.

(** ** Operators *)

Lemma py_in_dict_some key d v :
  d !! key = Some v → py_in key (VDict d) = mret true.
Proof. intros Hd; simpl. by rewrite bool_decide_eq_true_2; [|rewrite Hd; eauto]. Qed.

Lemma py_in_dict_none key d :
  d !! key = None → py_in key (VDict d) = mret false.
Proof.
  intros Hd; simpl. rewrite bool_decide_eq_false_2; [done|].
  rewrite Hd. by intros [? ?].
Qed.

Lemma py_get_dict_some key d v :
  d !! key = Some v → py_get (VDict d) key = mret v.
Proof. intros Hd; simpl. by rewrite Hd. Qed.

Lemma py_getitem_dict_some key d v :
  d !! key = Some v → py_getitem (VDict d) key = mret v.
Proof. intros Hd; simpl. by rewrite Hd. Qed.

Lemma py_in_pure key v : pure (py_in key v).
Proof. by destruct v. Qed.

Lemma py_get_pure v key : pure (py_get v key).
Proof. by destruct v. Qed.

Lemma py_getitem_pure v key : pure (py_getitem v key).
Proof. destruct v; try done. simpl. by destruct (d !! key). Qed.

Lemma py_first_pure v : pure (py_first v).
Proof. destruct v as [| | | |[|c s]|[|x l]|d]; done. Qed.

Lemma verdicts_get_pure k : pure (verdicts_get k).
Proof. by destruct k. Qed.

Lemma verdicts_get_known code verdict :
  HOMEWORK_VERDICTS !! code = Some verdict →
  verdicts_get (VStr code) = mret (VStr verdict).
Proof. intros Hv; simpl. by rewrite Hv. Qed.

Lemma verdicts_lookup_unknown code :
  code ≠ "approved" → code ≠ "reviewing" → code ≠ "rejected" →
  HOMEWORK_VERDICTS !! code = None.
Proof.
  intros Ha Hr Hj. unfold HOMEWORK_VERDICTS.
  rewrite !lookup_insert_ne by done. apply lookup_empty.
Qed.

Lemma verdicts_get_unknown status :
  hashable status = true →
  status ≠ VStr "approved" → status ≠ VStr "reviewing" → status ≠ VStr "rejected" →
  verdicts_get status = mret VNone.
Proof.
  intros Hh Ha Hr Hj. destruct status; try done; simpl.
  rewrite verdicts_lookup_unknown; [done|congruence..].
Qed.

Lemma verdicts_nonempty code verdict :
  HOMEWORK_VERDICTS !! code = Some verdict → py_truthy (VStr verdict) = true.
Proof.
  unfold HOMEWORK_VERDICTS. intros Hv.
  apply lookup_insert_Some in Hv as [[_ <-]|[_ Hv]]; [done|].
  apply lookup_insert_Some in Hv as [[_ <-]|[_ Hv]]; [done|].
  apply lookup_insert_Some in Hv as [[_ <-]|[_ Hv]]; [done|].
  by rewrite lookup_empty in Hv.
Qed.

Lemma append_cons ch (a b : string) : String ch a ++ b = String ch (a ++ b).
Proof. reflexivity. Qed.

Lemma append_assoc (a b c : string) : (a ++ b) ++ c = a ++ (b ++ c).
Proof. induction a as [|ch a IH]; [done|]. by rewrite !append_cons, IH. Qed.

Lemma append_nil_r (a : string) : a ++ "" = a.
Proof. induction a as [|ch a IH]; [done|]. by rewrite append_cons, IH. Qed.

Lemma status_message_has_name name verdict :
  occurs_in (py_str name) (status_message name verdict).
Proof.
  unfold status_message.
  exists ("Изменился статус проверки работы " ++ dquote), (dquote ++ ". " ++ py_str verdict).
  by rewrite !append_assoc.
Qed.

Lemma status_message_has_verdict name verdict :
  occurs_in (py_str verdict) (status_message name verdict).
Proof.
  exists ("Изменился статус проверки работы " ++ dquote ++ py_str name ++ dquote ++ ". "), "".
  unfold status_message. by rewrite append_nil_r, !append_assoc.
Qed.

(** ** check_response *)

Lemma check_response_list d homework :
  d !! "homeworks" = Some (VList homework) →
  check_response (VDict d) = ([], Return (VList homework)).
Proof.
  intros Hd. unfold check_response; cbn [is_dict negb].
  rewrite (py_in_dict_some _ _ _ Hd), bind_ret; cbn [negb].
  rewrite (py_getitem_dict_some _ _ _ Hd), bind_ret; cbn [is_list negb].
  by rewrite (py_get_dict_some _ _ _ Hd), bind_ret.
Qed.

(** C4. [check_response] raises [TypeError] on every value that is not a
    dict, [KeyError] on every dict without the key [homeworks],
    [TypeError] on every dict whose [homeworks] entry is not a list, and
    on every dict whose [homeworks] entry is a list (the empty one
    included) it returns that list, without logging anything. *)
Theorem check_response_spec (response : value) :
  (is_dict response = false →
     events_of (check_response response) = [] ∧
     fails_with (check_response response) TypeError) ∧
  (∀ d, response = VDict d → d !! "homeworks" = None →
     events_of (check_response response) = [] ∧
     fails_with (check_response response) KeyError) ∧
  (∀ d item, response = VDict d → d !! "homeworks" = Some item →
     is_list item = false →
     events_of (check_response response) = [] ∧
     fails_with (check_response response) TypeError) ∧
  (∀ d homework, response = VDict d → d !! "homeworks" = Some (VList homework) →
     check_response response = ([], Return (VList homework))).
Proof.
  split; [|split; [|split]].
  - intros Hty. destruct response; try done; split; try done; by eexists.
  - intros d -> Hd. unfold check_response; cbn [is_dict negb].
    rewrite (py_in_dict_none _ _ Hd), bind_ret; cbn [negb].
    split; [done|by eexists].
  - intros d item -> Hd Hitem. unfold check_response; cbn [is_dict negb].
    rewrite (py_in_dict_some _ _ _ Hd), bind_ret; cbn [negb].
    rewrite (py_getitem_dict_some _ _ _ Hd), bind_ret, Hitem; cbn [negb].
    split; [done|by eexists].
  - intros d homework -> Hd. by apply check_response_list.
Qed.

(** ** parse_status *)

Lemma messages_distinct :
  no_name_msg ≠ no_status_msg ∧ no_name_msg ≠ bad_status_msg
  ∧ no_status_msg ≠ bad_status_msg.
Proof. repeat split; by apply String.eqb_neq. Qed.

Lemma parse_status_known d name code verdict :
  d !! "homework_name" = Some name → d !! "status" = Some (VStr code) →
  HOMEWORK_VERDICTS !! code = Some verdict →
  parse_status (VDict d) = ([], Return (status_message name (VStr verdict))).
Proof.
  intros Hn Hs Hv. unfold parse_status.
  rewrite (py_in_dict_some _ _ _ Hn), bind_ret; cbn [negb].
  rewrite (py_in_dict_some _ _ _ Hs), bind_ret; cbn [negb].
  rewrite (py_get_dict_some _ _ _ Hs), bind_ret.
  rewrite (verdicts_get_known _ _ Hv), bind_ret.
  rewrite (verdicts_nonempty _ _ Hv); cbn [negb].
  by rewrite (py_getitem_dict_some _ _ _ Hn), bind_ret.
Qed.

(** C3, as amended. On a record (a dict):
    - without [homework_name], [KeyError] with the text about
      [homework_name];
    - with [homework_name] but without [status], [KeyError] with the text
      about [status] (so a record without [status] always gets one of the
      two missing-key errors);
    - with both, and a status that is hashable (null, boolean, number or
      string) and none of [approved], [reviewing], [rejected], [KeyError]
      with the undocumented-status text;
    - with both, and one of the three codes as status, the returned message
      holds the formatted name and the verdict mapped to the code.
    The three error texts differ from one another, and the three verdicts
    are the ones of [HOMEWORK_VERDICTS]. *)
Theorem parse_status_spec (d : gmap string value) :
  (d !! "homework_name" = None →
     parse_status (VDict d) = ([], Raise (raised KeyError no_name_msg))) ∧
  (is_Some (d !! "homework_name") → d !! "status" = None →
     parse_status (VDict d) = ([], Raise (raised KeyError no_status_msg))) ∧
  (d !! "status" = None →
     ∃ msg, (msg = no_name_msg ∨ msg = no_status_msg) ∧
       parse_status (VDict d) = ([], Raise (raised KeyError msg))) ∧
  (∀ name status,
     d !! "homework_name" = Some name → d !! "status" = Some status →
     hashable status = true →
     status ≠ VStr "approved" → status ≠ VStr "reviewing" →
     status ≠ VStr "rejected" →
     parse_status (VDict d) = ([], Raise (raised KeyError bad_status_msg))) ∧
  (∀ name code verdict,
     d !! "homework_name" = Some name → d !! "status" = Some (VStr code) →
     HOMEWORK_VERDICTS !! code = Some verdict →
     parse_status (VDict d) = ([], Return (status_message name (VStr verdict)))
     ∧ occurs_in (py_str name) (status_message name (VStr verdict))
     ∧ occurs_in verdict (status_message name (VStr verdict))) ∧
  (no_name_msg ≠ no_status_msg ∧ no_name_msg ≠ bad_status_msg
   ∧ no_status_msg ≠ bad_status_msg) ∧
  (HOMEWORK_VERDICTS !! "approved"
     = Some "Работа проверена: ревьюеру всё понравилось. Ура!"
   ∧ HOMEWORK_VERDICTS !! "reviewing" = Some "Работа взята на проверку ревьюером."
   ∧ HOMEWORK_VERDICTS !! "rejected"
     = Some "Работа проверена: у ревьюера есть замечания.").
Proof.
  assert (Hname : d !! "homework_name" = None →
    parse_status (VDict d) = ([], Raise (raised KeyError no_name_msg))).
  { intros Hn. unfold parse_status.
    by rewrite (py_in_dict_none _ _ Hn), bind_ret. }
  assert (Hstatus : is_Some (d !! "homework_name") → d !! "status" = None →
    parse_status (VDict d) = ([], Raise (raised KeyError no_status_msg))).
  { intros [name Hn] Hs. unfold parse_status.
    rewrite (py_in_dict_some _ _ _ Hn), bind_ret; cbn [negb].
    by rewrite (py_in_dict_none _ _ Hs), bind_ret. }
  split; [done|]. split; [done|]. split; [|split; [|split]].
  - intros Hs. destruct (d !! "homework_name") as [name|] eqn:Hn.
    + exists no_status_msg. split; [by right|]. apply Hstatus; eauto.
    + exists no_name_msg. split; [by left|]. by apply Hname.
  - intros name status Hn Hs Hh Ha Hr Hj. unfold parse_status.
    rewrite (py_in_dict_some _ _ _ Hn), bind_ret; cbn [negb].
    rewrite (py_in_dict_some _ _ _ Hs), bind_ret; cbn [negb].
    rewrite (py_get_dict_some _ _ _ Hs), bind_ret.
    by rewrite verdicts_get_unknown, bind_ret.
  - intros name code verdict Hn Hs Hv. split; [|split].
    + by apply (parse_status_known d name code verdict).
    + apply status_message_has_name.
    + apply (status_message_has_verdict name (VStr verdict)).
  - split; [apply messages_distinct|]. by repeat split.
Qed.

(** ** get_api_answer *)

Lemma get_api_answer_except_logs e :
  ∃ text, get_api_answer_except e = ([Log ERROR text], Return tt)
          ∧ occurs_in (str_exn e) text.
Proof.
  unfold get_api_answer_except.
  destruct (exn_cls e); eexists; (split; [reflexivity|]);
    first [ by exists "Ошибка отправки запроса. ", ""; rewrite append_nil_r
          | by exists "Произошла ошибка: ", ""; rewrite append_nil_r ].
Qed.

Lemma get_api_answer_raised env ts e :
  get_api_answer_try env ts = ([HttpGet ts], None, Raise e) →
  get_api_answer env ts
  = (HttpGet ts :: events_of (get_api_answer_except e), Raise unbound_response_data).
Proof.
  intros Htry. unfold get_api_answer. rewrite Htry. unfold try_except.
  destruct (get_api_answer_except_logs e) as (text & Hlog & _).
  rewrite Hlog. reflexivity.
Qed.

Lemma get_api_answer_ok env ts body :
  fetch_gives env ts body →
  result (py_in "form_date" body) = Return true →
  get_api_answer env ts
  = ([HttpGet ts; Log DEBUG "Ответ от сервера получен"], Return body).
Proof.
  intros (r & Hget & Hcode & Hjson) Hin.
  unfold get_api_answer, get_api_answer_try.
  rewrite Hget, Hcode, Hjson, Hin. reflexivity.
Qed.

Lemma get_api_answer_lacking env ts body :
  fetch_gives env ts body →
  result (py_in "form_date" body) = Return false →
  get_api_answer env ts
  = ([HttpGet ts; Log DEBUG "Ответ от сервера получен";
      Log ERROR ("Произошла ошибка: " ++ no_form_date_msg)], Return body).
Proof.
  intros (r & Hget & Hcode & Hjson) Hin.
  unfold get_api_answer, get_api_answer_try.
  rewrite Hget, Hcode, Hjson, Hin. reflexivity.
Qed.

(** The failure paths of [get_api_answer] as the code stands. When the
    request raises or the status is not 200, the [try] block ends at once
    with that error: the body is not decoded and [response_data] is not
    assigned. The error is logged once, at error level, and the handlers
    do not raise it again. At [return] the unassigned [response_data] is
    read, and the exception this raises is what the [try] block of the
    loop receives. *)
Lemma get_api_answer_failure (cfg : config) (env : cycle_env) (st : loop_state) :
  let ts := timestamp st in
  (∀ e, http_get env ts = inl e →
     get_api_answer_try env ts = ([HttpGet ts], None, Raise e)
     ∧ ∃ text, events_of (get_api_answer env ts) = [HttpGet ts; Log ERROR text]
               ∧ occurs_in (str_exn e) text) ∧
  (∀ r, http_get env ts = inr r → status_code r ≠ 200%Z →
     get_api_answer_try env ts
     = ([HttpGet ts], None,
        Raise (raised Exception_ (bad_url_msg (request_url r))))
     ∧ events_of (get_api_answer env ts)
       = [HttpGet ts;
          Log ERROR ("Произошла ошибка: " ++ bad_url_msg (request_url r))]) ∧
  (fetch_fails env ts →
     result (get_api_answer env ts) = Raise unbound_response_data ∧
     result (cycle_try cfg env st) = Raise unbound_response_data).
Proof.
  intros ts.
  assert (Hraise : ∀ e, http_get env ts = inl e →
    get_api_answer_try env ts = ([HttpGet ts], None, Raise e)).
  { intros e He. unfold get_api_answer_try. by rewrite He. }
  assert (Hstatus : ∀ r, http_get env ts = inr r → status_code r ≠ 200%Z →
    get_api_answer_try env ts
    = ([HttpGet ts], None,
       Raise (raised Exception_ (bad_url_msg (request_url r))))).
  { intros r Hr Hcode. unfold get_api_answer_try. rewrite Hr.
    by apply Z.eqb_neq in Hcode as ->. }
  split; [|split].
  - intros e He. split; [by apply Hraise|].
    rewrite (get_api_answer_raised env ts e (Hraise e He)).
    destruct (get_api_answer_except_logs e) as (text & -> & Hocc). eauto.
  - intros r Hr Hcode. split; [by apply Hstatus|].
    by rewrite (get_api_answer_raised env ts _ (Hstatus r Hr Hcode)).
  - intros Hfail.
    assert (Hres : result (get_api_answer env ts) = Raise unbound_response_data).
    { destruct Hfail as [[e He]|(r & Hr & Hcode)].
      - by rewrite (get_api_answer_raised env ts e (Hraise e He)).
      - by rewrite (get_api_answer_raised env ts _ (Hstatus r Hr Hcode)). }
    split; [done|]. unfold cycle_try. fold ts.
    by rewrite (bind_raise _ _ _ Hres).
Qed.

(** C8. When the request is answered with status 200 and the decoded body
    is a dict without the key [form_date], [get_api_answer] logs one error
    and returns the decoded body; the same holds for every decoded body in
    which ['form_date' in body] is false. *)
Theorem get_api_answer_no_form_date (env : cycle_env) (ts body : value) :
  fetch_gives env ts body →
  ((∃ d, body = VDict d ∧ d !! "form_date" = None)
   ∨ result (py_in "form_date" body) = Return false) →
  get_api_answer env ts
  = ([HttpGet ts; Log DEBUG "Ответ от сервера получен";
      Log ERROR ("Произошла ошибка: " ++ no_form_date_msg)], Return body)
  ∧ logged ERROR (events_of (get_api_answer env ts))
    = ["Произошла ошибка: Отсутствует параметр `form_date`"].
Proof.
  intros Hfetch Hlack.
  assert (Hin : result (py_in "form_date" body) = Return false).
  { destruct Hlack as [(d & -> & Hd)|Hin]; [|done].
    by rewrite (py_in_dict_none _ _ Hd). }
  rewrite (get_api_answer_lacking _ _ _ Hfetch Hin). done.
Qed.

(** ** One cycle of the loop *)

Lemma check_response_pure response : pure (check_response response).
Proof.
  unfold check_response. destruct (negb (is_dict response)); [done|].
  apply pure_bind; [apply py_in_pure|]. intros has.
  destruct (negb has); [done|].
  apply pure_bind; [apply py_getitem_pure|]. intros item.
  destruct (negb (is_list item)); [done|].
  apply pure_bind; [apply py_get_pure|done].
Qed.

Lemma parse_status_pure homework : pure (parse_status homework).
Proof.
  unfold parse_status.
  apply pure_bind; [apply py_in_pure|]. intros has_name.
  destruct (negb has_name); [done|].
  apply pure_bind; [apply py_in_pure|]. intros has_status.
  destruct (negb has_status); [done|].
  apply pure_bind; [apply py_get_pure|]. intros status.
  apply pure_bind; [apply verdicts_get_pure|]. intros verdict.
  destruct (negb (py_truthy verdict)); [done|].
  apply pure_bind; [apply py_getitem_pure|done].
Qed.

Lemma parse_status_returns homework msg :
  result (parse_status homework) = Return msg →
  ∃ name verdict, msg = status_message name verdict.
Proof.
  unfold parse_status. intros Hres.
  apply bind_returns in Hres as (has_name & _ & Hres).
  destruct (negb has_name); [done|].
  apply bind_returns in Hres as (has_status & _ & Hres).
  destruct (negb has_status); [done|].
  apply bind_returns in Hres as (status & _ & Hres).
  apply bind_returns in Hres as (verdict & _ & Hres).
  destruct (negb (py_truthy verdict)); [done|].
  apply bind_returns in Hres as (name & _ & Hres).
  exists name, verdict. by injection Hres.
Qed.

Lemma status_message_not_failure name verdict :
  is_failure_text (status_message name verdict) = false.
Proof. reflexivity. Qed.

Lemma prefix_append (a b : string) : String.prefix a (a ++ b) = true.
Proof.
  induction a as [|c a IH]; [by destruct b|].
  rewrite append_cons. simpl. by destruct (ascii_dec c c).
Qed.

Lemma failure_message_is_failure e : is_failure_text (failure_message e) = true.
Proof. apply prefix_append. Qed.

Lemma send_message_events cfg env message :
  ∃ lvl text,
    send_message cfg env message
    = ([TgSend (TELEGRAM_CHAT_ID cfg) message; Log lvl text], Return tt).
Proof. unfold send_message. destruct (tg_send_ok env message); by do 2 eexists. Qed.

Lemma send_message_sent cfg env message :
  sent (events_of (send_message cfg env message)) = [message]
  ∧ result (send_message cfg env message) = Return tt.
Proof. by destruct (send_message_events cfg env message) as (lvl & text & ->). Qed.

Lemma failure_sent_send cfg env message :
  failure_sent (events_of (send_message cfg env message))
  = if is_failure_text message then [message] else [].
Proof.
  unfold failure_sent.
  destruct (send_message_sent cfg env message) as [-> _].
  rewrite filter_cons, filter_nil.
  destruct (is_failure_text message); by case_decide.
Qed.

Lemma get_api_answer_sends_nothing env ts :
  sent (events_of (get_api_answer env ts)) = []
  ∧ result (get_api_answer env ts) ≠ Exit.
Proof.
  unfold get_api_answer, get_api_answer_try.
  destruct (http_get env ts) as [e|r].
  { unfold try_except.
    by destruct (get_api_answer_except_logs e) as (text & -> & _). }
  destruct (negb (status_code r =? 200)%Z).
  { unfold try_except.
    by destruct (get_api_answer_except_logs
                   (raised Exception_ (bad_url_msg (request_url r))))
         as (text & -> & _). }
  destruct (json r) as [e|body].
  { unfold try_except.
    by destruct (get_api_answer_except_logs e) as (text & -> & _). }
  destruct (py_in_pure "form_date" body) as [_ Hne].
  destruct (result (py_in "form_date" body)) as [[|]|e|]; [done| | |done].
  - unfold try_except; cbn [negb].
    by destruct (get_api_answer_except_logs (raised Exception_ no_form_date_msg))
         as (text & -> & _).
  - unfold try_except.
    by destruct (get_api_answer_except_logs e) as (text & -> & _).
Qed.

Lemma get_api_answer_quiet env ts : quiet (get_api_answer env ts).
Proof.
  destruct (get_api_answer_sends_nothing env ts) as [Hs Hr].
  split; [|done]. unfold failure_sent. by rewrite Hs.
Qed.

(** The [try] block of the loop sends at most the status notification,
    never a failure notification, and cannot end the process. *)
Lemma cycle_try_quiet cfg env st : quiet (cycle_try cfg env st).
Proof.
  unfold cycle_try.
  apply quiet_bind; [apply get_api_answer_quiet|]. intros response _.
  apply quiet_bind; [apply pure_quiet, check_response_pure|]. intros homework _.
  apply quiet_bind; [|intros; apply pure_quiet, py_getitem_pure].
  destruct (py_truthy homework).
  - apply quiet_bind; [apply pure_quiet, py_first_pure|]. intros first _.
    apply quiet_bind; [apply pure_quiet, parse_status_pure|].
    intros msg Hmsg. apply parse_status_returns in Hmsg as (name & verdict & ->).
    split; [|by destruct (send_message_sent cfg env (status_message name verdict))
                   as [_ ->]].
    by rewrite failure_sent_send, status_message_not_failure.
  - apply pure_quiet, pure_bind; [apply parse_status_pure|done].
Qed.

Lemma cycle_try_timestamp cfg env st st' :
  timestamp st = timestamp st' → cycle_try cfg env st = cycle_try cfg env st'.
Proof. unfold cycle_try. by intros ->. Qed.

Lemma cycle_success cfg env st ts :
  result (cycle_try cfg env st) = Return ts →
  cycle cfg env st
  = ((events_of (cycle_try cfg env st) ++ [Sleep RETRY_PERIOD])%list,
     Return {| timestamp := ts; last_send_error := last_send_error st |}).
Proof.
  unfold cycle. destruct (cycle_try cfg env st) as [tr r]; simpl. intros ->.
  unfold try_finally, try_except; simpl. by rewrite app_nil_r.
Qed.

Lemma cycle_failure_new cfg env st error :
  result (cycle_try cfg env st) = Raise error →
  last_send_error st ≠ Some (failure_message error) →
  cycle cfg env st
  = ((events_of (cycle_try cfg env st)
      ++ events_of (send_message cfg env (failure_message error))
      ++ [Sleep RETRY_PERIOD])%list,
     Return {| timestamp := timestamp st;
               last_send_error := Some (failure_message error) |}).
Proof.
  unfold cycle. destruct (cycle_try cfg env st) as [tr r]; simpl.
  intros -> Hnew. unfold try_finally, try_except, cycle_except; simpl.
  rewrite bool_decide_eq_true_2 by done.
  destruct (send_message_events cfg env (failure_message error))
    as (lvl & text & ->). simpl. by rewrite <- app_assoc.
Qed.

Lemma cycle_failure_same cfg env st error :
  result (cycle_try cfg env st) = Raise error →
  last_send_error st = Some (failure_message error) →
  cycle cfg env st
  = ((events_of (cycle_try cfg env st) ++ [Sleep RETRY_PERIOD])%list, Return st).
Proof.
  unfold cycle. destruct (cycle_try cfg env st) as [tr r]; simpl.
  intros -> Hsame. unfold try_finally, try_except, cycle_except; simpl.
  rewrite bool_decide_eq_false_2 by (by intros []).
  simpl. by rewrite app_nil_r.
Qed.

(** Every cycle comes back to the top of the loop. *)
Lemma cycle_returns cfg env st : ∃ st', result (cycle cfg env st) = Return st'.
Proof.
  destruct (cycle_try_quiet cfg env st) as [_ Hne].
  destruct (result (cycle_try cfg env st)) as [ts|error|] eqn:Hres; [| |done].
  - rewrite (cycle_success _ _ _ _ Hres). eauto.
  - destruct (decide (last_send_error st = Some (failure_message error))) as [Hs|Hn].
    + rewrite (cycle_failure_same _ _ _ _ Hres Hs). eauto.
    + rewrite (cycle_failure_new _ _ _ _ Hres Hn). eauto.
Qed.

Lemma get_api_answer_returns_body env ts body :
  fetch_gives env ts body →
  result (get_api_answer env ts) = Return body
  ∧ sent (events_of (get_api_answer env ts)) = [].
Proof.
  intros Hfetch. split; [|apply get_api_answer_sends_nothing].
  destruct Hfetch as (r & Hget & Hcode & Hjson).
  unfold get_api_answer, get_api_answer_try. rewrite Hget, Hcode, Hjson.
  destruct (py_in_pure "form_date" body) as [_ Hne].
  destruct (result (py_in "form_date" body)) as [[|]|e|]; [done| | |done].
  - unfold try_except; cbn [negb Z.eqb Pos.eqb].
    by destruct (get_api_answer_except_logs (raised Exception_ no_form_date_msg))
         as (text & -> & _).
  - unfold try_except; cbn [negb Z.eqb Pos.eqb].
    by destruct (get_api_answer_except_logs e) as (text & -> & _).
Qed.

Lemma body_of_homeworks homeworks form_date d :
  body_of homeworks form_date = VDict d →
  d !! "homeworks" = Some (VList homeworks)
  ∧ d !! "form_date" = Some (VInt form_date).
Proof.
  unfold body_of. intros [= <-]. split; [apply lookup_insert_eq|].
  rewrite lookup_insert_ne by done. apply lookup_insert_eq.
Qed.

(** A cycle whose answer lists at least one homework that [parse_status]
    accepts: the status text is the only send of the [try] block, which
    ends with [response['form_date']]. *)
Lemma cycle_try_first cfg env st d first rest msg :
  fetch_gives env (timestamp st) (VDict d) →
  d !! "homeworks" = Some (VList (first :: rest)) →
  result (parse_status first) = Return msg →
  sent (events_of (cycle_try cfg env st)) = [msg]
  ∧ result (cycle_try cfg env st) = result (py_getitem (VDict d) "form_date").
Proof.
  intros Hfetch Hd Hmsg.
  destruct (get_api_answer_returns_body _ _ _ Hfetch) as [Hres Hsent].
  destruct (get_api_answer env (timestamp st)) as [tr r] eqn:Hget.
  cbn [result events_of fst snd] in Hres, Hsent. subst r.
  pose proof (check_response_list d (first :: rest) Hd) as Hcheck.
  pose proof (pure_eta _ (parse_status_pure first)) as Hparse.
  rewrite Hmsg in Hparse.
  destruct (send_message_events cfg env msg) as (lvl & text & Hsend).
  pose proof (pure_eta _ (py_getitem_pure (VDict d) "form_date")) as Hitem.
  unfold cycle_try. rewrite Hget, bind_pair; cbv beta.
  rewrite Hcheck, bind_pair; cbv beta. cbn [py_truthy py_first].
  rewrite bind_ret, Hparse, bind_pair; cbv beta.
  rewrite Hsend. cbn [events_of result fst snd app].
  rewrite bind_pair, Hitem. cbn [events_of result fst snd app].
  split; [|done]. rewrite sent_app, Hsent. done.
Qed.

(** A cycle whose answer lists no homework: [parse_status] is called on
    the empty list and raises. *)
Lemma cycle_try_empty cfg env st d :
  fetch_gives env (timestamp st) (VDict d) →
  d !! "homeworks" = Some (VList []) →
  sent (events_of (cycle_try cfg env st)) = []
  ∧ result (cycle_try cfg env st) = Raise (raised KeyError no_name_msg).
Proof.
  intros Hfetch Hd.
  destruct (get_api_answer_returns_body _ _ _ Hfetch) as [Hres Hsent].
  destruct (get_api_answer env (timestamp st)) as [tr r] eqn:Hget.
  cbn [result events_of fst snd] in Hres, Hsent. subst r.
  pose proof (check_response_list d [] Hd) as Hcheck.
  unfold cycle_try. rewrite Hget, bind_pair; cbv beta.
  rewrite Hcheck, bind_pair; cbv beta. cbn [py_truthy].
  assert (Hparse : parse_status (VList [])
                   = ([], Raise (raised KeyError no_name_msg))) by done.
  rewrite Hparse. cbn [events_of result fst snd app].
  split; [|done]. by rewrite sent_app, Hsent.
Qed.

Lemma sent_cycle_success cfg env st ts :
  result (cycle_try cfg env st) = Return ts →
  sent (events_of (cycle cfg env st)) = sent (events_of (cycle_try cfg env st)).
Proof.
  intros Hres. rewrite (cycle_success _ _ _ _ Hres); cbn [events_of fst].
  by rewrite sent_app, app_nil_r.
Qed.

Lemma sent_cycle_failure_new cfg env st error :
  result (cycle_try cfg env st) = Raise error →
  last_send_error st ≠ Some (failure_message error) →
  sent (events_of (cycle cfg env st))
  = (sent (events_of (cycle_try cfg env st)) ++ [failure_message error])%list.
Proof.
  intros Hres Hnew. rewrite (cycle_failure_new _ _ _ _ Hres Hnew).
  destruct (send_message_events cfg env (failure_message error))
    as (lvl & text & ->).
  cbn [events_of fst]. by rewrite !sent_app.
Qed.

Lemma failure_sent_cycle_success cfg env st ts :
  result (cycle_try cfg env st) = Return ts →
  failure_sent (events_of (cycle cfg env st)) = [].
Proof.
  intros Hres. unfold failure_sent. rewrite (sent_cycle_success _ _ _ _ Hres).
  apply cycle_try_quiet.
Qed.

Lemma failure_sent_cycle_new cfg env st error :
  result (cycle_try cfg env st) = Raise error →
  last_send_error st ≠ Some (failure_message error) →
  failure_sent (events_of (cycle cfg env st)) = [failure_message error].
Proof.
  intros Hres Hnew. unfold failure_sent.
  rewrite (sent_cycle_failure_new _ _ _ _ Hres Hnew), filter_app.
  destruct (cycle_try_quiet cfg env st) as [Hq _]. unfold failure_sent in Hq.
  rewrite Hq, filter_cons, filter_nil.
  by rewrite decide_True by apply failure_message_is_failure.
Qed.

Lemma failure_sent_cycle_same cfg env st error :
  result (cycle_try cfg env st) = Raise error →
  last_send_error st = Some (failure_message error) →
  failure_sent (events_of (cycle cfg env st)) = [].
Proof.
  intros Hres Hsame. rewrite (cycle_failure_same _ _ _ _ Hres Hsame).
  cbn [events_of fst]. rewrite failure_sent_app, app_nil_r.
  apply cycle_try_quiet.
Qed.

Lemma failure_message_inj e1 e2 :
  failure_message e1 = failure_message e2 ↔ str_exn e1 = str_exn e2.
Proof.
  unfold failure_message. split; [|by intros ->].
  apply (inj (String.app _)).
Qed.

(** ** The loop *)

Lemma main_loop_cons cfg env rest st st1 :
  result (cycle cfg env st) = Return st1 →
  events_of (main_loop cfg (env :: rest) st)
  = (events_of (cycle cfg env st) ++ events_of (main_loop cfg rest st1))%list
  ∧ result (main_loop cfg (env :: rest) st) = result (main_loop cfg rest st1).
Proof. intros Hc. cbn [main_loop]. by apply bind_events. Qed.

Lemma main_loop_returns cfg envs st :
  ∃ st', result (main_loop cfg envs st) = Return st'.
Proof.
  revert st. induction envs as [|env rest IH]; intros st; [by exists st|].
  destruct (cycle_returns cfg env st) as [st1 Hc].
  destruct (main_loop_cons cfg env rest st st1 Hc) as [_ ->]. apply IH.
Qed.

(** C2. A cycle, from any cursor and any last-error cache, in which the
    request is answered with status 200 and the body
    [{"homeworks": [{"homework_name": "hw1", "status": "approved"}],
      "form_date": 1000}]
    hands exactly one text to the notifier, the status message of [hw1]
    with the verdict of [approved], and leaves the cursor at 1000. *)
Theorem cycle_scenario_approved (cfg : config) (env : cycle_env) (st : loop_state) :
  fetch_gives env (timestamp st)
    (body_of [record_of (VStr "hw1") (VStr "approved")] 1000) →
  sent (events_of (cycle cfg env st))
  = ["Изменился статус проверки работы " ++ dquote ++ "hw1" ++ dquote
     ++ ". Работа проверена: ревьюеру всё понравилось. Ура!"]
  ∧ result (cycle cfg env st)
    = Return {| timestamp := VInt 1000; last_send_error := last_send_error st |}.
Proof.
  intros Hfetch.
  destruct (body_of [record_of (VStr "hw1") (VStr "approved")] 1000)
    as [| | | | | |d] eqn:Hbody; try done.
  destruct (body_of_homeworks _ _ _ Hbody) as [Hhw Hdate].
  assert (Hmsg : result (parse_status (record_of (VStr "hw1") (VStr "approved")))
    = Return (status_message (VStr "hw1")
                (VStr "Работа проверена: ревьюеру всё понравилось. Ура!"))).
  { unfold record_of.
    rewrite (parse_status_known _ (VStr "hw1") "approved"
               "Работа проверена: ревьюеру всё понравилось. Ура!");
      [done|apply lookup_insert_eq| |done].
    rewrite lookup_insert_ne by done. apply lookup_insert_eq. }
  destruct (cycle_try_first cfg env st d _ _ _ Hfetch Hhw Hmsg) as [Hsent Hres].
  rewrite (py_getitem_dict_some _ _ _ Hdate) in Hres.
  split.
  - rewrite (sent_cycle_success _ _ _ _ Hres), Hsent. done.
  - by rewrite (cycle_success _ _ _ _ Hres).
Qed.

(** C5, as amended. An exception that leaves the [try] block of a cycle
    becomes the text [failure_message]; it is sent, and stored as the
    last error, only when it differs from the stored one. Hence, for
    two consecutive cycles that fail, starting with a stored error other
    than the first text: the failure notification is sent once when the
    two error texts are the same and twice when they differ, and the
    stored error ends as the text of the last one. Status notifications
    that a failing cycle sent before it failed are not counted. *)
Theorem failure_dedup (cfg : config) (env1 env2 : cycle_env)
    (st st1 : loop_state) (e1 e2 : exn) :
  result (cycle_try cfg env1 st) = Raise e1 →
  result (cycle cfg env1 st) = Return st1 →
  result (cycle_try cfg env2 st1) = Raise e2 →
  last_send_error st ≠ Some (failure_message e1) →
  failure_sent (events_of (cycle cfg env1 st)) = [failure_message e1]
  ∧ last_send_error st1 = Some (failure_message e1)
  ∧ (str_exn e1 = str_exn e2 →
       failure_sent (events_of (main_loop cfg [env1; env2] st))
       = [failure_message e1])
  ∧ (str_exn e1 ≠ str_exn e2 →
       failure_sent (events_of (main_loop cfg [env1; env2] st))
       = [failure_message e1; failure_message e2])
  ∧ result (main_loop cfg [env1; env2] st)
    = Return {| timestamp := timestamp st;
                last_send_error := Some (failure_message e2) |}.
Proof.
  intros H1 Hc1 H2 Hnew.
  assert (Hst1 : st1 = {| timestamp := timestamp st;
                          last_send_error := Some (failure_message e1) |}).
  { rewrite (cycle_failure_new _ _ _ _ H1 Hnew) in Hc1. by injection Hc1. }
  pose proof (failure_sent_cycle_new _ _ _ _ H1 Hnew) as Hs1.
  destruct (main_loop_cons cfg env1 [env2] st st1 Hc1) as [Hev Hres].
  split; [done|]. split; [by rewrite Hst1|].
  destruct (decide (str_exn e1 = str_exn e2)) as [Heq|Hne].
  - assert (Hsame : last_send_error st1 = Some (failure_message e2)).
    { rewrite Hst1; simpl. f_equal. by apply failure_message_inj. }
    assert (Hc2 : result (cycle cfg env2 st1) = Return st1)
      by by rewrite (cycle_failure_same _ _ _ _ H2 Hsame).
    destruct (main_loop_cons cfg env2 [] st1 st1 Hc2) as [Hev2 Hres2].
    split; [|split; [done|]].
    + intros _. rewrite Hev, Hev2, !failure_sent_app, Hs1.
      by rewrite (failure_sent_cycle_same _ _ _ _ H2 Hsame).
    + rewrite Hres, Hres2. cbn [main_loop]. rewrite Hst1.
      by rewrite (proj2 (failure_message_inj e1 e2) Heq).
  - assert (Hnew2 : last_send_error st1 ≠ Some (failure_message e2)).
    { rewrite Hst1; simpl. intros [= Hm]. by apply Hne, failure_message_inj. }
    assert (Hc2 : result (cycle cfg env2 st1)
                  = Return {| timestamp := timestamp st;
                              last_send_error := Some (failure_message e2) |}).
    { rewrite (cycle_failure_new _ _ _ _ H2 Hnew2). by rewrite Hst1. }
    destruct (main_loop_cons cfg env2 [] st1 _ Hc2) as [Hev2 Hres2].
    split; [done|split].
    + intros _. rewrite Hev, Hev2, !failure_sent_app, Hs1.
      by rewrite (failure_sent_cycle_new _ _ _ _ H2 Hnew2).
    + by rewrite Hres, Hres2.
Qed.

(** Once the text of the empty-list failure is the stored error, further
    cycles without homework send nothing and change nothing. *)
Lemma empty_cycles_suppressed cfg envs st :
  Forall (answers_no_homework (timestamp st)) envs →
  last_send_error st = Some (failure_message (raised KeyError no_name_msg)) →
  sent (events_of (main_loop cfg envs st)) = []
  ∧ result (main_loop cfg envs st) = Return st.
Proof.
  intros Hall Hsame. induction Hall as [|env rest (d & Hfetch & Hd) _ IH]; [done|].
  destruct (cycle_try_empty cfg env st d Hfetch Hd) as [Hsent Hres].
  pose proof (cycle_failure_same _ _ _ _ Hres Hsame) as Hc.
  assert (Hr : result (cycle cfg env st) = Return st) by by rewrite Hc.
  destruct (main_loop_cons cfg env rest st st Hr) as [-> ->].
  destruct IH as [IHs IHr]. split; [|done].
  rewrite sent_app, IHs, Hc. cbn [events_of fst].
  by rewrite sent_app, Hsent.
Qed.

(** C7, as amended. When the validated list of homeworks is empty, the
    loop calls [parse_status] on the empty list; the call raises [KeyError]
    for the missing key [homework_name], the [try] block ends with that
    exception and the cursor stays where it was. The failure text is sent,
    once, unless it is already the stored last error, in which case the
    cycle sends nothing; and however many such cycles follow one another,
    the text is sent once in all, or not at all when it was stored
    before the first of them. Afterwards it is the stored last error. *)
Theorem empty_homeworks_fail (cfg : config) (env : cycle_env)
    (envs : list cycle_env) (st : loop_state) :
  let message := failure_message (raised KeyError no_name_msg) in
  let notified :=
    if bool_decide (last_send_error st = Some message) then [] else [message] in
  Forall (answers_no_homework (timestamp st)) (env :: envs) →
  parse_status (VList []) = ([], Raise (raised KeyError no_name_msg))
  ∧ result (cycle_try cfg env st) = Raise (raised KeyError no_name_msg)
  ∧ sent (events_of (cycle cfg env st)) = notified
  ∧ sent (events_of (main_loop cfg (env :: envs) st)) = notified
  ∧ result (main_loop cfg (env :: envs) st)
    = Return {| timestamp := timestamp st; last_send_error := Some message |}.
Proof.
  intros message notified Hall. unfold notified.
  pose proof Hall as Hall'.
  apply Forall_cons in Hall as [(d & Hfetch & Hd) Hrest].
  destruct (cycle_try_empty cfg env st d Hfetch Hd) as [Hsent Hres].
  split; [done|]. split; [done|].
  case_bool_decide as Hcache.
  - destruct (empty_cycles_suppressed cfg (env :: envs) st Hall' Hcache)
      as [Hs Hr].
    split; [|split; [done|]].
    + rewrite (cycle_failure_same _ _ _ _ Hres Hcache). cbn [events_of fst].
      by rewrite sent_app, Hsent.
    + rewrite Hr. destruct st as [ts cache]; simpl in *. by rewrite Hcache.
  - pose proof (sent_cycle_failure_new _ _ _ _ Hres Hcache) as Hs.
    rewrite Hsent in Hs.
    set (st1 := {| timestamp := timestamp st; last_send_error := Some message |}).
    assert (Hc : result (cycle cfg env st) = Return st1)
      by by rewrite (cycle_failure_new _ _ _ _ Hres Hcache).
    destruct (main_loop_cons cfg env envs st st1 Hc) as [Hev Hr].
    destruct (empty_cycles_suppressed cfg envs st1 Hrest eq_refl) as [Hs' Hr'].
    split; [done|split].
    + by rewrite Hev, sent_app, Hs, Hs'.
    + by rewrite Hr, Hr'.
Qed.

(** The stored error changes only in a cycle that sends a failure
    notification, and then it becomes the text sent. *)
Lemma cycle_cache cfg env st st1 :
  result (cycle cfg env st) = Return st1 →
  (failure_sent (events_of (cycle cfg env st)) = []
   ∧ last_send_error st1 = last_send_error st)
  ∨ (∃ message, failure_sent (events_of (cycle cfg env st)) = [message]
       ∧ last_send_error st1 = Some message
       ∧ last_send_error st ≠ Some message).
Proof.
  destruct (cycle_try_quiet cfg env st) as [_ Hne].
  destruct (result (cycle_try cfg env st)) as [ts|error|] eqn:Hres; [| |done].
  - rewrite (failure_sent_cycle_success _ _ _ _ Hres).
    rewrite (cycle_success _ _ _ _ Hres). intros [= <-]. by left.
  - destruct (decide (last_send_error st = Some (failure_message error)))
      as [Hsame|Hnew].
    + rewrite (failure_sent_cycle_same _ _ _ _ Hres Hsame).
      rewrite (cycle_failure_same _ _ _ _ Hres Hsame). intros [= <-]. by left.
    + rewrite (failure_sent_cycle_new _ _ _ _ Hres Hnew).
      rewrite (cycle_failure_new _ _ _ _ Hres Hnew). intros [= <-].
      right. by exists (failure_message error).
Qed.

Lemma main_loop_cache cfg envs st st' :
  result (main_loop cfg envs st) = Return st' →
  failure_sent (events_of (main_loop cfg envs st)) = [] →
  last_send_error st' = last_send_error st.
Proof.
  revert st. induction envs as [|env rest IH]; intros st.
  { by intros [= <-]. }
  destruct (cycle_returns cfg env st) as [st1 Hc].
  destruct (main_loop_cons cfg env rest st st1 Hc) as [-> ->].
  rewrite failure_sent_app. intros Hr [Hs1 Hs2]%app_eq_nil.
  rewrite (IH st1 Hr Hs2).
  destruct (cycle_cache cfg env st st1 Hc) as [[_ ?]|(m & Hm & _)]; [done|].
  by rewrite Hm in Hs1.
Qed.

(** C10, as amended. The stored error changes only in a cycle that sends
    a failure notification, which then becomes the stored error; a cycle
    whose [try] block succeeds leaves it as it is. Hence, once a failure
    text has been sent, a later cycle failing with the same text sends no
    failure notification and changes nothing, provided no failure
    notification was sent in the cycles in between, whatever the number of
    successful cycles among them. *)
Theorem error_cache_persists (cfg : config) (env0 env : cycle_env)
    (envs : list cycle_env) (st0 st st' : loop_state) (error : exn) :
  result (cycle cfg env0 st0) = Return st →
  ((failure_sent (events_of (cycle cfg env0 st0)) = []
    ∧ last_send_error st = last_send_error st0)
   ∨ (∃ message, failure_sent (events_of (cycle cfg env0 st0)) = [message]
        ∧ last_send_error st = Some message))
  ∧ (∀ ts, result (cycle_try cfg env0 st0) = Return ts →
       failure_sent (events_of (cycle cfg env0 st0)) = []
       ∧ last_send_error st = last_send_error st0)
  ∧ (failure_message error ∈ failure_sent (events_of (cycle cfg env0 st0)) →
     result (main_loop cfg envs st) = Return st' →
     failure_sent (events_of (main_loop cfg envs st)) = [] →
     result (cycle_try cfg env st') = Raise error →
     failure_sent (events_of (cycle cfg env st')) = []
     ∧ result (cycle cfg env st') = Return st').
Proof.
  intros Hc.
  assert (Hcache :
    (failure_sent (events_of (cycle cfg env0 st0)) = []
     ∧ last_send_error st = last_send_error st0)
    ∨ (∃ message, failure_sent (events_of (cycle cfg env0 st0)) = [message]
         ∧ last_send_error st = Some message)).
  { destruct (cycle_cache cfg env0 st0 st Hc) as [?|(m & ? & ? & _)]; eauto. }
  split; [done|split].
  - intros ts Hts. split; [by apply (failure_sent_cycle_success _ _ _ ts)|].
    rewrite (cycle_success _ _ _ _ Hts) in Hc. by injection Hc as <-.
  - intros Hsent Hrun Hquiet Hfail.
    assert (Hst : last_send_error st = Some (failure_message error)).
    { destruct Hcache as [[Hnil _]|(m & Hm & Hst)].
      - rewrite Hnil in Hsent. by apply elem_of_nil in Hsent.
      - rewrite Hm in Hsent. apply list_elem_of_singleton in Hsent. by subst. }
    assert (Hst' : last_send_error st' = Some (failure_message error))
      by by rewrite (main_loop_cache _ _ _ _ Hrun Hquiet).
    split; [by apply (failure_sent_cycle_same _ _ _ error)|].
    by rewrite (cycle_failure_same _ _ _ _ Hfail Hst').
Qed.

(** ** Startup *)

Lemma truthy_getenv (t : option string) :
  py_truthy (getenv_value t) = false ↔ unset t.
Proof.
  unfold unset. destruct t as [[|c s]|]; simpl;
    (split; [intros Ht; first [by left | by right] | by intros [Hu|Hu]]).
Qed.

Lemma check_tokens_all_set cfg :
  ¬ unset (PRACTICUM_TOKEN cfg) → ¬ unset (TELEGRAM_TOKEN cfg) →
  ¬ unset (TELEGRAM_CHAT_ID cfg) →
  check_tokens cfg
  = ([Log DEBUG "Проверка ключей закончилась успешно"], Return VNone).
Proof.
  intros Hp Ht Hc. unfold check_tokens, LST_NOT_NULL. cbn [forallb].
  destruct (py_truthy (getenv_value (PRACTICUM_TOKEN cfg))) eqn:Ep;
    [|by apply truthy_getenv in Ep].
  destruct (py_truthy (getenv_value (TELEGRAM_TOKEN cfg))) eqn:Et;
    [|by apply truthy_getenv in Et].
  destruct (py_truthy (getenv_value (TELEGRAM_CHAT_ID cfg))) eqn:Ec;
    [|by apply truthy_getenv in Ec].
  reflexivity.
Qed.

Lemma check_tokens_unset cfg :
  unset (PRACTICUM_TOKEN cfg) ∨ unset (TELEGRAM_TOKEN cfg)
  ∨ unset (TELEGRAM_CHAT_ID cfg) →
  check_tokens cfg
  = ((check_token_at cfg 0 ++ check_token_at cfg 1 ++ check_token_at cfg 2)%list,
     Exit).
Proof.
  intros Hu. unfold check_tokens, LST_NOT_NULL. cbn [forallb].
  assert (Hall : py_truthy (getenv_value (PRACTICUM_TOKEN cfg))
                 && (py_truthy (getenv_value (TELEGRAM_TOKEN cfg))
                     && (py_truthy (getenv_value (TELEGRAM_CHAT_ID cfg)) && true))
                 = false).
  { destruct Hu as [Hu|[Hu|Hu]]; apply truthy_getenv in Hu; rewrite Hu;
      by rewrite ?andb_false_r. }
  rewrite Hall. cbn [negb length seq flat_map]. by rewrite app_nil_r.
Qed.

Lemma check_token_at_logged cfg i (t : option string) name :
  LST_NOT_NULL cfg !! i = Some (getenv_value t) →
  LST_NOT_NULL_STRING !! i = Some name →
  logged CRITICAL (check_token_at cfg i)
  = if py_truthy (getenv_value t) then [] else [missing_msg name].
Proof.
  intros Hv Hn. unfold check_token_at. rewrite Hv, Hn.
  by destruct (py_truthy (getenv_value t)).
Qed.

Lemma logged_app lvl tr1 tr2 :
  logged lvl (tr1 ++ tr2)%list = (logged lvl tr1 ++ logged lvl tr2)%list.
Proof. apply omap_app. Qed.

Lemma check_token_at_local cfg i : existsb is_network (check_token_at cfg i) = false.
Proof.
  unfold check_token_at.
  destruct (LST_NOT_NULL cfg !! i) as [v|]; [|done].
  destruct (LST_NOT_NULL_STRING !! i) as [name|]; [|done].
  by destruct (negb (py_truthy v)).
Qed.

(** Case analysis on which of the three values are set. *)
Ltac case_tokens cfg :=
  destruct (py_truthy (getenv_value (PRACTICUM_TOKEN cfg))),
    (py_truthy (getenv_value (TELEGRAM_TOKEN cfg))),
    (py_truthy (getenv_value (TELEGRAM_CHAT_ID cfg))); simpl.

Lemma missing_msgs_distinct :
  missing_msg "PRACTICUM_TOKEN" ≠ missing_msg "TELEGRAM_TOKEN"
  ∧ missing_msg "PRACTICUM_TOKEN" ≠ missing_msg "TELEGRAM_CHAT_ID"
  ∧ missing_msg "TELEGRAM_TOKEN" ≠ missing_msg "TELEGRAM_CHAT_ID"
  ∧ ∀ name, name ∈ LST_NOT_NULL_STRING →
      "Отсутствуют обязательные переменные" ≠ missing_msg name.
Proof.
  repeat split; try by apply String.eqb_neq.
  intros name Hname. unfold LST_NOT_NULL_STRING in Hname.
  rewrite !elem_of_cons, elem_of_nil in Hname.
  destruct Hname as [->|[->|[->|[]]]]; by apply String.eqb_neq.
Qed.

Lemma check_tokens_logged cfg :
  unset (PRACTICUM_TOKEN cfg) ∨ unset (TELEGRAM_TOKEN cfg)
  ∨ unset (TELEGRAM_CHAT_ID cfg) →
  logged CRITICAL (events_of (check_tokens cfg))
  = ((if py_truthy (getenv_value (PRACTICUM_TOKEN cfg)) then []
      else [missing_msg "PRACTICUM_TOKEN"])
     ++ (if py_truthy (getenv_value (TELEGRAM_TOKEN cfg)) then []
         else [missing_msg "TELEGRAM_TOKEN"])
     ++ (if py_truthy (getenv_value (TELEGRAM_CHAT_ID cfg)) then []
         else [missing_msg "TELEGRAM_CHAT_ID"]))%list.
Proof.
  intros Hu. rewrite (check_tokens_unset cfg Hu). cbn [events_of fst].
  rewrite !logged_app.
  rewrite (check_token_at_logged cfg 0 (PRACTICUM_TOKEN cfg) "PRACTICUM_TOKEN") by done.
  rewrite (check_token_at_logged cfg 1 (TELEGRAM_TOKEN cfg) "TELEGRAM_TOKEN") by done.
  by rewrite (check_token_at_logged cfg 2 (TELEGRAM_CHAT_ID cfg) "TELEGRAM_CHAT_ID").
Qed.

Lemma main_unset cfg start envs :
  unset (PRACTICUM_TOKEN cfg) ∨ unset (TELEGRAM_TOKEN cfg)
  ∨ unset (TELEGRAM_CHAT_ID cfg) →
  main cfg start envs = (events_of (check_tokens cfg), Exit).
Proof. intros Hu. unfold main. by rewrite (check_tokens_unset cfg Hu). Qed.

(** C6. If one of the three configuration values is absent or empty,
    [check_tokens] logs, at critical level, the text naming each value that
    is absent or empty (and no other), and ends the process: [main] stops
    there, before any HTTP request or chat message. If the three are
    present, [check_tokens] only logs one text at debug level and returns. *)
Theorem check_tokens_halts (cfg : config) (start : startup_env)
    (envs : list cycle_env) :
  (unset (PRACTICUM_TOKEN cfg) ∨ unset (TELEGRAM_TOKEN cfg)
   ∨ unset (TELEGRAM_CHAT_ID cfg) →
     result (check_tokens cfg) = Exit
     ∧ (unset (PRACTICUM_TOKEN cfg) ↔
          missing_msg "PRACTICUM_TOKEN"
          ∈ logged CRITICAL (events_of (check_tokens cfg)))
     ∧ (unset (TELEGRAM_TOKEN cfg) ↔
          missing_msg "TELEGRAM_TOKEN"
          ∈ logged CRITICAL (events_of (check_tokens cfg)))
     ∧ (unset (TELEGRAM_CHAT_ID cfg) ↔
          missing_msg "TELEGRAM_CHAT_ID"
          ∈ logged CRITICAL (events_of (check_tokens cfg)))
     ∧ main cfg start envs = (events_of (check_tokens cfg), Exit)
     ∧ existsb is_network (events_of (main cfg start envs)) = false)
  ∧ (¬ unset (PRACTICUM_TOKEN cfg) → ¬ unset (TELEGRAM_TOKEN cfg) →
     ¬ unset (TELEGRAM_CHAT_ID cfg) →
     check_tokens cfg
     = ([Log DEBUG "Проверка ключей закончилась успешно"], Return VNone)).
Proof.
  split; [|apply check_tokens_all_set].
  intros Hu.
  destruct missing_msgs_distinct as (Hpt & Hpc & Htc & _).
  pose proof (check_tokens_logged cfg Hu) as Hlog.
  split; [by rewrite (check_tokens_unset cfg Hu)|].
  rewrite (main_unset cfg start envs Hu), Hlog.
  rewrite <- !truthy_getenv.
  split; [|split; [|split; [|split; [done|]]]].
  - case_tokens cfg;
      rewrite ?elem_of_cons, ?elem_of_nil; intuition congruence.
  - case_tokens cfg;
      rewrite ?elem_of_cons, ?elem_of_nil; intuition congruence.
  - case_tokens cfg;
      rewrite ?elem_of_cons, ?elem_of_nil; intuition congruence.
  - rewrite (check_tokens_unset cfg Hu). unfold events_of; cbn [fst].
    by rewrite !existsb_app, !check_token_at_local.
Qed.

(** C9. Whenever [check_tokens] returns, it returns [None], which is
    falsy; otherwise it ends the process. So with the three values present
    [main] takes the branch [if not check_tokens():] and logs its critical
    text right after the debug text of [check_tokens]; with a value absent
    or empty [main] never reaches the branch: the process has ended, and
    the critical text of the branch is not logged. *)
Theorem check_tokens_returns_none (cfg : config) (start : startup_env)
    (envs : list cycle_env) :
  (∀ v, result (check_tokens cfg) = Return v → v = VNone ∧ py_truthy v = false)
  ∧ (result (check_tokens cfg) = Return VNone ∨ result (check_tokens cfg) = Exit)
  ∧ (¬ unset (PRACTICUM_TOKEN cfg) → ¬ unset (TELEGRAM_TOKEN cfg) →
     ¬ unset (TELEGRAM_CHAT_ID cfg) →
     ∃ rest, events_of (main cfg start envs)
             = Log DEBUG "Проверка ключей закончилась успешно"
               :: Log CRITICAL "Отсутствуют обязательные переменные" :: rest)
  ∧ (unset (PRACTICUM_TOKEN cfg) ∨ unset (TELEGRAM_TOKEN cfg)
     ∨ unset (TELEGRAM_CHAT_ID cfg) →
     result (main cfg start envs) = Exit
     ∧ "Отсутствуют обязательные переменные"
       ∉ logged CRITICAL (events_of (main cfg start envs))).
Proof.
  assert (Hcases : result (check_tokens cfg) = Return VNone
                   ∨ result (check_tokens cfg) = Exit).
  { unfold check_tokens. destruct (negb (forallb py_truthy (LST_NOT_NULL cfg)));
      [by right|by left]. }
  split; [|split; [done|split]].
  - intros v Hv. destruct Hcases as [Hr|Hr]; rewrite Hr in Hv; [|done].
    by injection Hv as <-.
  - intros Hp Ht Hc. unfold main.
    rewrite (check_tokens_all_set cfg Hp Ht Hc), bind_pair; cbv beta.
    cbn [py_truthy negb]. rewrite events_bind. cbn [events_of fst app].
    rewrite events_bind. cbn [emit events_of fst app]. eauto.
  - intros Hu. rewrite (main_unset cfg start envs Hu). split; [done|].
    cbn [events_of fst]. rewrite (check_tokens_logged cfg Hu).
    destruct missing_msgs_distinct as (_ & _ & _ & Hother).
    pose proof (Hother "PRACTICUM_TOKEN" ltac:(repeat constructor)) as Hp.
    pose proof (Hother "TELEGRAM_TOKEN" ltac:(repeat constructor)) as Ht.
    pose proof (Hother "TELEGRAM_CHAT_ID" ltac:(repeat constructor)) as Hc.
    case_tokens cfg;
      rewrite ?not_elem_of_cons; repeat split;
      first [assumption | apply not_elem_of_nil].
Qed.

End Properties.

(** * Further properties *)

Section More.
Context `{PyRuntime}.

(** ** Projections of a trace through the monad *)

Lemma omap_events_bind {A B C} (f : event → option C) (m : M A) (k : A → M B) :
  omap f (events_of (m ≫= k))
  = (omap f (events_of m)
     ++ match result m with
        | Return a => omap f (events_of (k a))
        | _ => []
        end)%list.
Proof. rewrite events_bind, omap_app. by destruct (result m). Qed.

Lemma pure_mute {A B} (f : event → option B) (m : M A) : pure m → mute f m.
Proof. intros [Hev _]. unfold mute. by rewrite Hev. Qed.

Lemma mute_bind {A B C} (f : event → option C) (m : M A) (k : A → M B) :
  mute f m → (∀ a, mute f (k a)) → mute f (m ≫= k).
Proof.
  unfold mute. intros Hm Hk. rewrite omap_events_bind, Hm.
  destruct (result m); [apply Hk|done..].
Qed.

Lemma py_get_dict_none key d :
  d !! key = None → py_get (VDict d) key = mret VNone.
Proof. intros Hd; simpl. by rewrite Hd. Qed.

Lemma alike_refl {A} (m : M A) : alike m m.
Proof. done. Qed.

Lemma alike_trans {A} (m1 m2 m3 : M A) : alike m1 m2 → alike m2 m3 → alike m1 m3.
Proof. intros [? ?] [? ?]. split; congruence. Qed.

Lemma alike_bind {A B} (m m' : M A) (k k' : A → M B) :
  alike m m' → (∀ a, alike (k a) (k' a)) → alike (m ≫= k) (m' ≫= k').
Proof.
  intros [Hs Hr] Hk. split.
  - unfold sent. rewrite !omap_events_bind. fold (sent (events_of m)).
    fold (sent (events_of m')). rewrite Hs, Hr.
    destruct (result m') as [a| |]; [|done..]. f_equal. apply Hk.
  - rewrite !result_bind, Hr. destruct (result m'); [apply Hk|done..].
Qed.

Lemma send_message_alike cfg env env' message :
  alike (send_message cfg env message) (send_message cfg env' message).
Proof.
  destruct (send_message_sent cfg env message) as [Hs Hr].
  destruct (send_message_sent cfg env' message) as [Hs' Hr'].
  split; congruence.
Qed.

(** ** get_api_answer, in full *)

Lemma get_api_answer_outcome env ts :
  (∃ body, fetch_gives env ts body
           ∧ result (get_api_answer env ts) = Return body)
  ∨ (fetch_broken env ts
     ∧ result (get_api_answer env ts) = Raise unbound_response_data).
Proof.
  destruct (http_get env ts) as [e|r] eqn:Hget.
  { right. split.
    - intros (body & r & Hr & _). congruence.
    - rewrite (get_api_answer_raised env ts e); [done|].
      unfold get_api_answer_try. by rewrite Hget. }
  destruct (decide (status_code r = 200%Z)) as [Hcode|Hcode].
  - destruct (json r) as [e|body] eqn:Hjson.
    + right. split.
      * intros (body & r' & Hr' & _ & Hj). congruence.
      * unfold get_api_answer, get_api_answer_try.
        rewrite Hget, Hcode, Hjson. unfold try_except; cbn [negb Z.eqb Pos.eqb].
        by destruct (get_api_answer_except_logs e) as (text & -> & _).
    + left. exists body.
      assert (Hfetch : fetch_gives env ts body) by by exists r.
      split; [done|]. by apply get_api_answer_returns_body.
  - right. split.
    + intros (body & r' & Hr' & Hc' & _). congruence.
    + rewrite (get_api_answer_raised env ts
                 (raised Exception_ (bad_url_msg (request_url r)))); [done|].
      unfold get_api_answer_try. rewrite Hget.
      by apply Z.eqb_neq in Hcode as ->.
Qed.

Lemma get_api_answer_returned env ts body :
  result (get_api_answer env ts) = Return body → fetch_gives env ts body.
Proof.
  destruct (get_api_answer_outcome env ts) as [(b & Hfetch & ->)|[_ ->]]; [|done].
  by intros [= <-].
Qed.

(** X1. [get_api_answer] returns exactly when the request is answered
    with status 200 and the body decodes, and then it returns the decoded
    body, whatever its type. In every other case (the request raised, the
    status is not 200, the body does not decode) it raises the error of
    the unassigned [response_data]; it raises nothing else and never ends
    the process. *)
Theorem get_api_answer_returns_iff (env : cycle_env) (ts : value) :
  (∀ body, result (get_api_answer env ts) = Return body ↔ fetch_gives env ts body)
  ∧ (fetch_broken env ts ↔
       result (get_api_answer env ts) = Raise unbound_response_data)
  ∧ (∀ e, result (get_api_answer env ts) = Raise e → e = unbound_response_data)
  ∧ result (get_api_answer env ts) ≠ Exit.
Proof.
  split; [|split; [|split]].
  - intros body. split; [apply get_api_answer_returned|].
    intros Hfetch. by apply get_api_answer_returns_body.
  - split.
    + intros Hbroken.
      destruct (get_api_answer_outcome env ts) as [(b & Hfetch & _)|[_ ->]]; [|done].
      destruct Hbroken. eauto.
    + intros Hres (body & Hfetch).
      apply get_api_answer_returns_body in Hfetch as [Hret _]. congruence.
  - intros e.
    destruct (get_api_answer_outcome env ts) as [(b & _ & ->)|[_ ->]]; [done|].
    by intros [= <-].
  - by destruct (get_api_answer_outcome env ts) as [(b & _ & ->)|[_ ->]].
Qed.

(** ** parse_status and check_response, read backwards *)

Lemma check_response_returned response homework :
  result (check_response response) = Return homework →
  ∃ d l, response = VDict d ∧ d !! "homeworks" = Some (VList l)
         ∧ homework = VList l.
Proof.
  unfold check_response. destruct response as [| | | | | |d]; try done.
  cbn [is_dict negb]. intros Hres.
  apply bind_returns in Hres as (has & _ & Hres).
  destruct (negb has); [done|].
  apply bind_returns in Hres as (item & Hitem & Hres).
  destruct item as [| | | | |l|]; try done. cbn [is_list negb] in Hres.
  apply bind_returns in Hres as (hw & Hhw & Hres).
  destruct (d !! "homeworks") as [v|] eqn:Hd;
    [|by rewrite (py_get_dict_none _ _ Hd) in Hhw; simpl in Hitem; rewrite Hd in Hitem].
  rewrite (py_getitem_dict_some _ _ _ Hd) in Hitem.
  rewrite (py_get_dict_some _ _ _ Hd) in Hhw.
  injection Hitem as ->. injection Hhw as <-. injection Hres as <-.
  by exists d, l.
Qed.

Lemma verdicts_lookup_known code verdict :
  HOMEWORK_VERDICTS !! code = Some verdict →
  code = "approved" ∨ code = "reviewing" ∨ code = "rejected".
Proof.
  unfold HOMEWORK_VERDICTS. intros Hv.
  apply lookup_insert_Some in Hv as [[<- _]|[_ Hv]]; [by left|].
  apply lookup_insert_Some in Hv as [[<- _]|[_ Hv]]; [by right; left|].
  apply lookup_insert_Some in Hv as [[<- _]|[_ Hv]]; [by right; right|].
  by rewrite lookup_empty in Hv.
Qed.

Lemma parse_status_returned homework message :
  result (parse_status homework) = Return message →
  ∃ d name code verdict,
    homework = VDict d
    ∧ d !! "homework_name" = Some name
    ∧ d !! "status" = Some (VStr code)
    ∧ (code = "approved" ∨ code = "reviewing" ∨ code = "rejected")
    ∧ HOMEWORK_VERDICTS !! code = Some verdict
    ∧ message = status_message name (VStr verdict).
Proof.
  unfold parse_status. intros Hres.
  apply bind_returns in Hres as (has_name & Hname & Hres).
  destruct has_name; [|done]. cbn [negb] in Hres.
  apply bind_returns in Hres as (has_status & Hstatus & Hres).
  destruct has_status; [|done]. cbn [negb] in Hres.
  apply bind_returns in Hres as (status & Hget & Hres).
  destruct homework as [| | | | | |d]; try done.
  destruct (d !! "homework_name") as [name|] eqn:Hn;
    [|by rewrite (py_in_dict_none _ _ Hn) in Hname].
  destruct (d !! "status") as [st|] eqn:Hs;
    [|by rewrite (py_in_dict_none _ _ Hs) in Hstatus].
  rewrite (py_get_dict_some _ _ _ Hs) in Hget. injection Hget as <-.
  apply bind_returns in Hres as (verdict & Hverdict & Hres).
  destruct st as [| | | |code| |]; try done;
    try (injection Hverdict as <-; done).
  simpl in Hverdict.
  destruct (HOMEWORK_VERDICTS !! code) as [v|] eqn:Hv;
    [|by injection Hverdict as <-].
  injection Hverdict as <-.
  destruct (negb (py_truthy (VStr v))); [done|].
  apply bind_returns in Hres as (name' & Hitem & Hres).
  rewrite (py_getitem_dict_some _ _ _ Hn) in Hitem.
  injection Hitem as <-. injection Hres as <-.
  exists d, name, code, v. repeat split; try done.
  by apply (verdicts_lookup_known code v).
Qed.

Lemma verdicts_lookup_total code :
  code = "approved" ∨ code = "reviewing" ∨ code = "rejected" →
  ∃ verdict, HOMEWORK_VERDICTS !! code = Some verdict.
Proof. intros [-> | [-> | ->]]; by eexists. Qed.

(** X2. [parse_status] returns a message for a value exactly when the
    value is a dict that has the key [homework_name] and, under [status],
    one of the strings [approved], [reviewing], [rejected]; the message is
    then the one built from the name and the verdict of that code. On
    every other value (not a dict, a key missing, any other status) it
    raises an exception; in no case does it log, send or end the
    process. *)
Theorem parse_status_returns_only (homework : value) :
  (∀ message, result (parse_status homework) = Return message →
     ∃ d name code verdict,
       homework = VDict d
       ∧ d !! "homework_name" = Some name
       ∧ d !! "status" = Some (VStr code)
       ∧ (code = "approved" ∨ code = "reviewing" ∨ code = "rejected")
       ∧ HOMEWORK_VERDICTS !! code = Some verdict
       ∧ message = status_message name (VStr verdict))
  ∧ (accepted_record homework →
       ∃ message, result (parse_status homework) = Return message)
  ∧ (¬ accepted_record homework →
       ∃ error, result (parse_status homework) = Raise error)
  ∧ events_of (parse_status homework) = []
  ∧ result (parse_status homework) ≠ Exit.
Proof.
  destruct (parse_status_pure homework) as [Hev Hne].
  split; [apply parse_status_returned|]. split; [|split; [|done]].
  - intros (d & name & code & -> & Hn & Hs & Hcode).
    destruct (verdicts_lookup_total code Hcode) as [verdict Hv].
    exists (status_message name (VStr verdict)).
    by rewrite (parse_status_known d name code verdict Hn Hs Hv).
  - intros Hnot.
    destruct (result (parse_status homework)) as [message|error|] eqn:Hres;
      [|by exists error|done].
    destruct Hnot.
    apply parse_status_returned in Hres
      as (d & name & code & verdict & -> & Hn & Hs & Hcode & _).
    by exists d, name, code.
Qed.

(** ** What a cycle does to the cursor *)

Lemma cycle_try_returned cfg env st ts :
  result (cycle_try cfg env st) = Return ts →
  ∃ d, fetch_gives env (timestamp st) (VDict d) ∧ d !! "form_date" = Some ts.
Proof.
  unfold cycle_try. intros Hres.
  apply bind_returns in Hres as (response & Hget & Hres).
  apply get_api_answer_returned in Hget.
  apply bind_returns in Hres as (homework & Hcheck & Hres).
  apply check_response_returned in Hcheck as (d & l & -> & _ & _).
  apply bind_returns in Hres as ([] & _ & Hres).
  exists d. split; [done|]. simpl in Hres.
  destruct (d !! "form_date") as [v|]; [|done]. by injection Hres as ->.
Qed.

(** X3. Every cycle ends its [try] block in one of two ways. If the
    block raised, the cursor after the cycle is the cursor before it. If
    the block ran to the end, the new cursor is the value the block
    returned, which is the value the server sent under [form_date], and
    the last-error cache is untouched. So the cursor moves only in a cycle
    whose [try] block ran to the end. *)
Theorem cursor_from_server (cfg : config) (env : cycle_env) (st st' : loop_state) :
  result (cycle cfg env st) = Return st' →
  ((∃ error, result (cycle_try cfg env st) = Raise error)
   ∨ (∃ ts, result (cycle_try cfg env st) = Return ts))
  ∧ (∀ error, result (cycle_try cfg env st) = Raise error →
       timestamp st' = timestamp st)
  ∧ (∀ ts, result (cycle_try cfg env st) = Return ts →
       timestamp st' = ts
       ∧ last_send_error st' = last_send_error st
       ∧ ∃ d, fetch_gives env (timestamp st) (VDict d)
              ∧ d !! "form_date" = Some ts)
  ∧ (timestamp st' ≠ timestamp st →
       result (cycle_try cfg env st) = Return (timestamp st')).
Proof.
  intros Hc.
  assert (Hfail : ∀ error, result (cycle_try cfg env st) = Raise error →
                           timestamp st' = timestamp st).
  { intros error Hres.
    destruct (decide (last_send_error st = Some (failure_message error)))
      as [Hsame|Hnew].
    - rewrite (cycle_failure_same _ _ _ _ Hres Hsame) in Hc. by injection Hc as <-.
    - rewrite (cycle_failure_new _ _ _ _ Hres Hnew) in Hc. by injection Hc as <-. }
  assert (Hok : ∀ ts, result (cycle_try cfg env st) = Return ts →
                      timestamp st' = ts
                      ∧ last_send_error st' = last_send_error st).
  { intros ts Hres. rewrite (cycle_success _ _ _ _ Hres) in Hc.
    by injection Hc as <-. }
  destruct (cycle_try_quiet cfg env st) as [_ Hne].
  split; [|split; [done|split]].
  - destruct (result (cycle_try cfg env st)) as [ts|error|]; [|by left; eauto|done].
    right. by exists ts.
  - intros ts Hres. destruct (Hok ts Hres) as [Hts Hcache].
    split; [done|]. split; [done|]. by apply (cycle_try_returned cfg).
  - intros Hmoved.
    destruct (result (cycle_try cfg env st)) as [ts|error|] eqn:Hres; [| |done].
    + by destruct (Hok ts eq_refl) as [-> _].
    + destruct Hmoved. by apply (Hfail error).
Qed.

(** ** The rhythm of the loop *)

Lemma get_api_answer_head env ts :
  ∃ rest, events_of (get_api_answer env ts) = HttpGet ts :: rest
          ∧ requests_made rest = [] ∧ sleeps rest = [].
Proof.
  unfold get_api_answer, get_api_answer_try.
  destruct (http_get env ts) as [e|r].
  { unfold try_except.
    destruct (get_api_answer_except_logs e) as (text & -> & _). by eexists. }
  destruct (negb (status_code r =? 200)%Z).
  { unfold try_except.
    destruct (get_api_answer_except_logs
                (raised Exception_ (bad_url_msg (request_url r))))
      as (text & -> & _). by eexists. }
  destruct (json r) as [e|body].
  { unfold try_except.
    destruct (get_api_answer_except_logs e) as (text & -> & _). by eexists. }
  destruct (py_in_pure "form_date" body) as [_ Hne].
  destruct (result (py_in "form_date" body)) as [[|]|e|]; [by eexists| | |done].
  - unfold try_except; cbn [negb].
    destruct (get_api_answer_except_logs (raised Exception_ no_form_date_msg))
      as (text & -> & _). by eexists.
  - unfold try_except.
    destruct (get_api_answer_except_logs e) as (text & -> & _). by eexists.
Qed.

Lemma send_message_mute {B} (f : event → option B) cfg env message :
  (∀ chat text, f (TgSend chat text) = None) →
  (∀ lvl text, f (Log lvl text) = None) →
  mute f (send_message cfg env message).
Proof.
  intros Hsend Hlog.
  destruct (send_message_events cfg env message) as (lvl & text & ->).
  unfold mute; simpl. by rewrite Hsend, Hlog.
Qed.

(** After the request, the [try] block makes no request and does not
    sleep. *)
Lemma cycle_try_rest_mute {B} (f : event → option B) cfg env response :
  (∀ chat text, f (TgSend chat text) = None) →
  (∀ lvl text, f (Log lvl text) = None) →
  mute f (homework ← check_response response;
          (if py_truthy homework then
             first ← py_first homework;
             homework_status ← parse_status first;
             send_message cfg env homework_status
           else
             homework_status ← parse_status homework;
             mret tt);;
          py_getitem response "form_date").
Proof.
  intros Hsend Hlog.
  apply mute_bind; [apply pure_mute, check_response_pure|]. intros homework.
  apply mute_bind; [|intros; apply pure_mute, py_getitem_pure].
  destruct (py_truthy homework).
  - apply mute_bind; [apply pure_mute, py_first_pure|]. intros first.
    apply mute_bind; [apply pure_mute, parse_status_pure|]. intros msg.
    by apply send_message_mute.
  - apply pure_mute, pure_bind; [apply parse_status_pure|done].
Qed.

Lemma cycle_try_head cfg env st :
  ∃ rest, events_of (cycle_try cfg env st) = HttpGet (timestamp st) :: rest
          ∧ requests_made rest = [] ∧ sleeps rest = [].
Proof.
  destruct (get_api_answer_head env (timestamp st)) as (rest & Hev & Hreq & Hsl).
  unfold cycle_try. rewrite events_bind, Hev.
  destruct (result (get_api_answer env (timestamp st))) as [response| |].
  - match goal with
    | |- context [((_ :: rest) ++ ?tail)%list] => exists (rest ++ tail)%list
    end.
    split; [done|]. unfold requests_made, sleeps in *.
    rewrite !omap_app, Hreq, Hsl.
    split; by apply (cycle_try_rest_mute _ cfg env response).
  - exists rest. by rewrite app_nil_r.
  - exists rest. by rewrite app_nil_r.
Qed.

(** What a cycle adds after its [try] block: the failure notification,
    if any, and the sleep. *)
Lemma cycle_events cfg env st :
  ∃ handler,
    events_of (cycle cfg env st)
    = (events_of (cycle_try cfg env st) ++ handler ++ [Sleep RETRY_PERIOD])%list
    ∧ requests_made handler = [] ∧ sleeps handler = []
    ∧ (sent handler = []
       ∨ ∃ error, result (cycle_try cfg env st) = Raise error
                  ∧ last_send_error st ≠ Some (failure_message error)
                  ∧ sent handler = [failure_message error]).
Proof.
  destruct (cycle_try_quiet cfg env st) as [_ Hne].
  destruct (result (cycle_try cfg env st)) as [ts|error|] eqn:Hres; [| |done].
  - exists []. rewrite (cycle_success _ _ _ _ Hres). repeat split; by left.
  - destruct (decide (last_send_error st = Some (failure_message error)))
      as [Hsame|Hnew].
    + exists []. rewrite (cycle_failure_same _ _ _ _ Hres Hsame).
      repeat split; by left.
    + exists (events_of (send_message cfg env (failure_message error))).
      rewrite (cycle_failure_new _ _ _ _ Hres Hnew).
      split; [done|]. split; [|split].
      * by apply (send_message_mute _ cfg env).
      * by apply (send_message_mute _ cfg env).
      * right. exists error. repeat split; try done.
        apply send_message_sent.
Qed.

Lemma cycle_shape cfg env st :
  ∃ middle, events_of (cycle cfg env st)
            = (HttpGet (timestamp st) :: middle ++ [Sleep RETRY_PERIOD])%list
            ∧ requests_made middle = [] ∧ sleeps middle = [].
Proof.
  destruct (cycle_events cfg env st) as (handler & -> & Hreq & Hsl & _).
  destruct (cycle_try_head cfg env st) as (rest & -> & Hreq' & Hsl').
  exists (rest ++ handler)%list. split; [by rewrite <- !app_assoc|].
  unfold requests_made, sleeps in *. rewrite !omap_app.
  by rewrite Hreq, Hsl, Hreq', Hsl'.
Qed.

Lemma cycle_rhythm cfg env st :
  requests_made (events_of (cycle cfg env st)) = [timestamp st]
  ∧ sleeps (events_of (cycle cfg env st)) = [RETRY_PERIOD].
Proof.
  destruct (cycle_shape cfg env st) as (middle & -> & Hreq & Hsl).
  change (HttpGet (timestamp st) :: middle ++ [Sleep RETRY_PERIOD])%list
    with ([HttpGet (timestamp st)] ++ middle ++ [Sleep RETRY_PERIOD])%list.
  unfold requests_made, sleeps in *. by rewrite !omap_app, Hreq, Hsl.
Qed.

(** X4. No exception leaves the loop and nothing in it ends the
    process: after any number of cycles it is back at the top. Each cycle
    makes exactly one request, carrying the cursor it started with, and
    sleeps exactly once, for [RETRY_PERIOD] seconds, as its last action,
    whether it failed or not. *)
Theorem loop_rhythm (cfg : config) (env : cycle_env) (envs : list cycle_env)
    (st : loop_state) :
  (∃ middle, events_of (cycle cfg env st)
             = (HttpGet (timestamp st) :: middle ++ [Sleep RETRY_PERIOD])%list
             ∧ requests_made middle = [] ∧ sleeps middle = [])
  ∧ (∃ st', result (main_loop cfg envs st) = Return st')
  ∧ sleeps (events_of (main_loop cfg envs st))
    = replicate (length envs) RETRY_PERIOD
  ∧ length (requests_made (events_of (main_loop cfg envs st))) = length envs.
Proof.
  split; [apply cycle_shape|]. split; [apply main_loop_returns|].
  revert st. induction envs as [|env1 rest IH]; intros st; [done|].
  destruct (cycle_returns cfg env1 st) as [st1 Hc].
  destruct (main_loop_cons cfg env1 rest st st1 Hc) as [-> _].
  destruct (cycle_rhythm cfg env1 st) as [Hreq Hsl].
  destruct (IH st1) as [IHs IHr].
  unfold sleeps, requests_made in *. rewrite !omap_app, Hreq, Hsl.
  cbn [app length replicate]. by rewrite IHs, IHr.
Qed.


(** ** What a cycle sends *)

Lemma sent_bind {A B} (m : M A) (k : A → M B) :
  sent (events_of (m ≫= k))
  = (sent (events_of m)
     ++ match result m with
        | Return a => sent (events_of (k a))
        | _ => []
        end)%list.
Proof. apply omap_events_bind. Qed.

Lemma pure_sent {A} (m : M A) : pure m → sent (events_of m) = [].
Proof. intros [-> _]. done. Qed.

Lemma cycle_try_sent_shape cfg env st :
  sent (events_of (cycle_try cfg env st)) = []
  ∨ ∃ name verdict,
      sent (events_of (cycle_try cfg env st)) = [status_message name verdict].
Proof.
  unfold cycle_try. rewrite sent_bind.
  rewrite (proj1 (get_api_answer_sends_nothing env (timestamp st))).
  destruct (result (get_api_answer env (timestamp st))) as [response| |];
    [|by left..].
  rewrite sent_bind, (pure_sent _ (check_response_pure response)).
  destruct (result (check_response response)) as [homework| |]; [|by left..].
  rewrite sent_bind.
  assert (Htail : ∀ r : outcome (),
    match r with
    | Return _ => sent (events_of (py_getitem response "form_date"))
    | _ => []
    end = []).
  { intros [[]| |]; [|done..]. apply pure_sent, py_getitem_pure. }
  rewrite Htail, app_nil_r. cbn [app].
  destruct (py_truthy homework).
  - rewrite sent_bind, (pure_sent _ (py_first_pure homework)).
    destruct (result (py_first homework)) as [first| |]; [|by left..].
    rewrite sent_bind, (pure_sent _ (parse_status_pure first)).
    destruct (result (parse_status first)) as [msg| |] eqn:Hmsg; [|by left..].
    apply parse_status_returns in Hmsg as (name & verdict & ->).
    right. exists name, verdict.
    by rewrite (proj1 (send_message_sent cfg env _)).
  - left. apply pure_sent, pure_bind; [apply parse_status_pure|done].
Qed.

Lemma sent_cycle cfg env st :
  ∃ failure,
    sent (events_of (cycle cfg env st))
    = (sent (events_of (cycle_try cfg env st)) ++ failure)%list
    ∧ (failure = []
       ∨ ∃ error, result (cycle_try cfg env st) = Raise error
                  ∧ last_send_error st ≠ Some (failure_message error)
                  ∧ failure = [failure_message error]).
Proof.
  destruct (cycle_events cfg env st) as (handler & -> & _ & _ & Hsent).
  exists (sent handler). split; [|done].
  by rewrite !sent_app, app_nil_r.
Qed.

(** X5. A cycle hands at most two texts to the notifier: at most one
    status message, built by [parse_status], and after it at most one
    failure message, which reports the exception that ended the [try]
    block and differs from the stored last error. *)
Theorem cycle_sends_at_most_two (cfg : config) (env : cycle_env) (st : loop_state) :
  ∃ status failure,
    sent (events_of (cycle cfg env st)) = (status ++ failure)%list
    ∧ (status = [] ∨ ∃ name verdict, status = [status_message name verdict])
    ∧ (failure = []
       ∨ ∃ error, result (cycle_try cfg env st) = Raise error
                  ∧ last_send_error st ≠ Some (failure_message error)
                  ∧ failure = [failure_message error])
    ∧ (length (sent (events_of (cycle cfg env st))) ≤ 2)%nat.
Proof.
  destruct (sent_cycle cfg env st) as (failure & Hsent & Hfailure).
  exists (sent (events_of (cycle_try cfg env st))), failure.
  split; [done|]. split; [apply cycle_try_sent_shape|]. split; [done|].
  rewrite Hsent, length_app.
  destruct (cycle_try_sent_shape cfg env st) as [->|(name & verdict & ->)],
    Hfailure as [->|(error & _ & _ & ->)]; simpl; lia.
Qed.

(** ** What a cycle does not depend on *)

Lemma get_api_answer_ext env env' ts :
  http_get env ts = http_get env' ts →
  get_api_answer env ts = get_api_answer env' ts.
Proof. intros Hget. unfold get_api_answer, get_api_answer_try. by rewrite Hget. Qed.

Lemma cycle_try_alike cfg env env' st :
  http_get env (timestamp st) = http_get env' (timestamp st) →
  alike (cycle_try cfg env st) (cycle_try cfg env' st).
Proof.
  intros Hget. unfold cycle_try. rewrite (get_api_answer_ext _ _ _ Hget).
  apply alike_bind; [done|]. intros response.
  apply alike_bind; [done|]. intros homework.
  apply alike_bind; [|done].
  destruct (py_truthy homework); [|done].
  apply alike_bind; [done|]. intros first.
  apply alike_bind; [done|]. intros msg. apply send_message_alike.
Qed.

Lemma cycle_alike cfg env env' st :
  alike (cycle_try cfg env st) (cycle_try cfg env' st) →
  alike (cycle cfg env st) (cycle cfg env' st).
Proof.
  intros [Hs Hr].
  destruct (cycle_try_quiet cfg env st) as [_ Hne].
  destruct (result (cycle_try cfg env st)) as [ts|error|] eqn:Hres; [| |done];
    symmetry in Hr.
  - rewrite (cycle_success _ _ _ _ Hres), (cycle_success _ _ _ _ Hr).
    split; [|done]. cbn [events_of fst]. by rewrite !sent_app, Hs.
  - destruct (decide (last_send_error st = Some (failure_message error)))
      as [Hsame|Hnew].
    + rewrite (cycle_failure_same _ _ _ _ Hres Hsame),
        (cycle_failure_same _ _ _ _ Hr Hsame).
      split; [|done]. cbn [events_of fst]. by rewrite !sent_app, Hs.
    + split.
      * rewrite (sent_cycle_failure_new _ _ _ _ Hres Hnew),
          (sent_cycle_failure_new _ _ _ _ Hr Hnew). by rewrite Hs.
      * by rewrite (cycle_failure_new _ _ _ _ Hres Hnew),
          (cycle_failure_new _ _ _ _ Hr Hnew).
Qed.

(** X6. Whether [bot.send_message] succeeds or fails changes neither the
    texts handed to the notifier nor the state of the loop: with the same
    answers to the requests, two runs send the same texts and end with the
    same cursor and the same last error. In particular a failure message
    whose sending failed is stored as sent and is not sent again. *)
Theorem send_outcome_irrelevant (cfg : config) (envs envs' : list cycle_env)
    (st : loop_state) :
  Forall2 (λ env env', ∀ ts, http_get env ts = http_get env' ts) envs envs' →
  sent (events_of (main_loop cfg envs st))
  = sent (events_of (main_loop cfg envs' st))
  ∧ result (main_loop cfg envs st) = result (main_loop cfg envs' st).
Proof.
  intros Hall. revert st.
  induction Hall as [|env env' rest rest' Hget _ IH]; intros st; [done|].
  destruct (cycle_alike cfg env env' st (cycle_try_alike cfg env env' st (Hget _)))
    as [Hs Hr].
  destruct (cycle_returns cfg env st) as [st1 Hc].
  assert (Hc' : result (cycle cfg env' st) = Return st1) by congruence.
  destruct (main_loop_cons cfg env rest st st1 Hc) as [-> ->].
  destruct (main_loop_cons cfg env' rest' st st1 Hc') as [-> ->].
  destruct (IH st1) as [IHs IHr]. by rewrite !sent_app, Hs, IHs.
Qed.

Lemma cycle_try_nonempty cfg env st d first rest :
  fetch_gives env (timestamp st) (VDict d) →
  d !! "homeworks" = Some (VList (first :: rest)) →
  alike (cycle_try cfg env st)
        ((homework_status ← parse_status first;
          send_message cfg env homework_status);;
         py_getitem (VDict d) "form_date").
Proof.
  intros Hfetch Hd.
  destruct (get_api_answer_returns_body _ _ _ Hfetch) as [Hres Hsent].
  destruct (get_api_answer env (timestamp st)) as [tr r] eqn:Hget.
  cbn [result events_of fst snd] in Hres, Hsent. subst r.
  unfold cycle_try. rewrite Hget, bind_pair; cbv beta.
  rewrite (check_response_list d (first :: rest) Hd), bind_pair; cbv beta.
  cbn [py_truthy py_first]. rewrite bind_ret.
  split; [|done]. cbn [events_of fst app]. by rewrite sent_app, Hsent.
Qed.

(** X7. Of the homeworks in an answer only the first one counts: two
    answers whose lists start with the same homework and which carry the
    same [form_date] (or both none) make the cycle send the same texts and
    end in the same state, whatever follows in the lists. *)
Theorem only_first_homework (cfg : config) (env env' : cycle_env)
    (st : loop_state) (d d' : gmap string value) (first : value)
    (rest rest' : list value) :
  fetch_gives env (timestamp st) (VDict d) →
  fetch_gives env' (timestamp st) (VDict d') →
  d !! "homeworks" = Some (VList (first :: rest)) →
  d' !! "homeworks" = Some (VList (first :: rest')) →
  d !! "form_date" = d' !! "form_date" →
  sent (events_of (cycle cfg env st)) = sent (events_of (cycle cfg env' st))
  ∧ result (cycle cfg env st) = result (cycle cfg env' st).
Proof.
  intros Hfetch Hfetch' Hd Hd' Hdate. apply cycle_alike.
  eapply alike_trans; [by apply (cycle_try_nonempty cfg env st d first rest)|].
  eapply alike_trans;
    [|destruct (cycle_try_nonempty cfg env' st d' first rest' Hfetch' Hd');
      split; symmetry; eassumption].
  apply alike_bind.
  - apply alike_bind; [done|]. intros msg. apply send_message_alike.
  - intros _. simpl. by rewrite Hdate.
Qed.

(** ** The failure notifications of a run *)

(** X8. In any run of the loop no failure message is sent twice in a
    row: each failure message sent differs from the one sent before it
    (and the first from the stored last error), and at the end the stored
    last error is the last failure message sent, or the initial one when
    none was sent. *)
Theorem failure_texts_never_repeat (cfg : config) (envs : list cycle_env)
    (st : loop_state) :
  ∃ st', result (main_loop cfg envs st) = Return st'
    ∧ no_repeat (last_send_error st)
        (failure_sent (events_of (main_loop cfg envs st)))
    ∧ last_send_error st'
      = match last (failure_sent (events_of (main_loop cfg envs st))) with
        | Some text => Some text
        | None => last_send_error st
        end.
Proof.
  revert st. induction envs as [|env rest IH]; intros st; [by exists st|].
  destruct (cycle_returns cfg env st) as [st1 Hc].
  destruct (main_loop_cons cfg env rest st st1 Hc) as [-> ->].
  destruct (IH st1) as (st' & Hr & Hrep & Hlast). exists st'.
  split; [done|]. rewrite failure_sent_app.
  destruct (cycle_cache cfg env st st1 Hc) as [[-> Hsame]|(m & -> & Hm & Hnew)].
  - cbn [app]. by rewrite <- Hsame.
  - cbn [app no_repeat]. rewrite Hm in Hrep, Hlast. split; [done|].
    rewrite last_cons, Hlast.
    by destruct (last (failure_sent (events_of (main_loop cfg rest st1)))).
Qed.

Lemma cycle_try_broken cfg env st :
  fetch_broken env (timestamp st) →
  result (cycle_try cfg env st) = Raise unbound_response_data
  ∧ sent (events_of (cycle_try cfg env st)) = [].
Proof.
  intros Hbroken.
  destruct (get_api_answer_outcome env (timestamp st))
    as [(b & Hfetch & _)|[_ Hres]]; [destruct Hbroken; eauto|].
  unfold cycle_try. rewrite (bind_raise _ _ _ Hres).
  split; [done|]. apply get_api_answer_sends_nothing.
Qed.

(** Cycles that fail with the stored error, having sent nothing, send
    nothing and change nothing. *)
Lemma same_failure_suppressed cfg envs st error :
  Forall (λ env, result (cycle_try cfg env st) = Raise error
                 ∧ sent (events_of (cycle_try cfg env st)) = []) envs →
  last_send_error st = Some (failure_message error) →
  sent (events_of (main_loop cfg envs st)) = []
  ∧ result (main_loop cfg envs st) = Return st.
Proof.
  intros Hall Hsame. induction Hall as [|env rest [Hres Hsent] _ IH]; [done|].
  pose proof (cycle_failure_same _ _ _ _ Hres Hsame) as Hc.
  assert (Hr : result (cycle cfg env st) = Return st) by by rewrite Hc.
  destruct (main_loop_cons cfg env rest st st Hr) as [-> ->].
  destruct IH as [IHs IHr]. split; [|done].
  rewrite sent_app, IHs, Hc. cbn [events_of fst].
  by rewrite sent_app, Hsent.
Qed.

(** X9. Every way in which the request can go wrong (the request
    raises, the status is not 200, the body does not decode) ends in the
    same failure message, so a run of such cycles, of whatever mix, sends
    that one message once and leaves the cursor where it was. *)
Theorem fetch_failures_notified_once (cfg : config) (env : cycle_env)
    (envs : list cycle_env) (st : loop_state) :
  let message := failure_message unbound_response_data in
  Forall (λ env, fetch_broken env (timestamp st)) (env :: envs) →
  last_send_error st ≠ Some message →
  sent (events_of (main_loop cfg (env :: envs) st)) = [message]
  ∧ result (main_loop cfg (env :: envs) st)
    = Return {| timestamp := timestamp st; last_send_error := Some message |}.
Proof.
  intros message Hall Hnew.
  apply Forall_cons in Hall as [Hbroken Hrest].
  destruct (cycle_try_broken cfg env st Hbroken) as [Hres Hsent].
  pose proof (sent_cycle_failure_new _ _ _ _ Hres Hnew) as Hs.
  rewrite Hsent in Hs.
  set (st1 := {| timestamp := timestamp st; last_send_error := Some message |}).
  assert (Hc : result (cycle cfg env st) = Return st1)
    by by rewrite (cycle_failure_new _ _ _ _ Hres Hnew).
  destruct (main_loop_cons cfg env envs st st1 Hc) as [-> ->].
  destruct (same_failure_suppressed cfg envs st1 unbound_response_data)
    as [Hs' Hr']; [|done|].
  { eapply Forall_impl; [exact Hrest|]. intros env1 Hb.
    by apply (cycle_try_broken cfg env1 st1). }
  split; [|done]. by rewrite sent_app, Hs, Hs'.
Qed.

(** ** The status notifications of a run *)

Lemma status_sent_app tr1 tr2 :
  status_sent (tr1 ++ tr2)%list = (status_sent tr1 ++ status_sent tr2)%list.
Proof. unfold status_sent. by rewrite sent_app, filter_app. Qed.

Lemma status_sent_cycle cfg env st d first rest msg :
  fetch_gives env (timestamp st) (VDict d) →
  d !! "homeworks" = Some (VList (first :: rest)) →
  result (parse_status first) = Return msg →
  status_sent (events_of (cycle cfg env st)) = [msg].
Proof.
  intros Hfetch Hd Hmsg.
  destruct (cycle_try_first cfg env st d first rest msg Hfetch Hd Hmsg) as [Hs _].
  destruct (sent_cycle cfg env st) as (failure & Hsent & Hfailure).
  apply parse_status_returns in Hmsg as (name & verdict & ->).
  unfold status_sent. rewrite Hsent, Hs, filter_app, filter_cons, filter_nil.
  rewrite decide_True by apply status_message_not_failure.
  destruct Hfailure as [->|(error & _ & _ & ->)]; [done|].
  rewrite filter_cons, filter_nil.
  by rewrite decide_False by (by rewrite failure_message_is_failure).
Qed.

(** X10. Status notifications are not deduplicated: in a run where every
    answer lists a homework first that [parse_status] accepts with the same
    message, that message is sent in every cycle, whether or not the cycle
    then fails and whatever the cursor. *)
Theorem status_sent_every_cycle (cfg : config) (envs : list cycle_env)
    (st : loop_state) (first : value) (msg : string) :
  result (parse_status first) = Return msg →
  Forall (answers_with_first first) envs →
  status_sent (events_of (main_loop cfg envs st)) = replicate (length envs) msg.
Proof.
  intros Hmsg Hall. revert st.
  induction Hall as [|env rest Henv _ IH]; intros st; [done|].
  destruct (Henv (timestamp st)) as (d & tl & Hfetch & Hd).
  destruct (cycle_returns cfg env st) as [st1 Hc].
  destruct (main_loop_cons cfg env rest st st1 Hc) as [-> _].
  rewrite status_sent_app, (status_sent_cycle cfg env st d first tl msg), IH; done.
Qed.

(** ** Answers the cycle rejects *)

Lemma cycle_try_rejected cfg env st body error :
  fetch_gives env (timestamp st) body →
  (result (check_response body) = Raise error
   ∨ ∃ d first rest, body = VDict d
       ∧ d !! "homeworks" = Some (VList (first :: rest))
       ∧ result (parse_status first) = Raise error) →
  result (cycle_try cfg env st) = Raise error
  ∧ sent (events_of (cycle_try cfg env st)) = [].
Proof.
  intros Hfetch Hrej.
  destruct (get_api_answer_returns_body _ _ _ Hfetch) as [Hres Hsent].
  destruct (get_api_answer env (timestamp st)) as [tr r] eqn:Hget.
  cbn [result events_of fst snd] in Hres, Hsent. subst r.
  unfold cycle_try. rewrite Hget, bind_pair; cbv beta.
  destruct Hrej as [Hcheck|(d & first & rest & -> & Hd & Hparse)].
  - pose proof (pure_eta _ (check_response_pure body)) as Heta.
    rewrite Hcheck in Heta. rewrite Heta. cbn [events_of result fst snd].
    split; [done|]. by rewrite sent_app, Hsent.
  - rewrite (check_response_list d (first :: rest) Hd), bind_pair; cbv beta.
    cbn [py_truthy py_first]. rewrite bind_ret.
    pose proof (pure_eta _ (parse_status_pure first)) as Heta.
    rewrite Hparse in Heta. rewrite Heta. cbn [events_of result fst snd].
    split; [done|]. by rewrite sent_app, Hsent.
Qed.

(** X11. When the decoded body is rejected by [check_response], or its
    first homework by [parse_status], the cycle sends no status message;
    the error becomes the failure message, sent unless it is the stored
    last error, and the cursor does not move. *)
Theorem rejected_answer_fails (cfg : config) (env : cycle_env) (st : loop_state)
    (body : value) (error : exn) :
  fetch_gives env (timestamp st) body →
  (result (check_response body) = Raise error
   ∨ ∃ d first rest, body = VDict d
       ∧ d !! "homeworks" = Some (VList (first :: rest))
       ∧ result (parse_status first) = Raise error) →
  result (cycle_try cfg env st) = Raise error
  ∧ sent (events_of (cycle cfg env st))
    = (if bool_decide (last_send_error st = Some (failure_message error))
       then [] else [failure_message error])
  ∧ result (cycle cfg env st)
    = Return {| timestamp := timestamp st;
                last_send_error := Some (failure_message error) |}.
Proof.
  intros Hfetch Hrej.
  destruct (cycle_try_rejected cfg env st body error Hfetch Hrej) as [Hres Hsent].
  split; [done|]. case_bool_decide as Hcache.
  - rewrite (cycle_failure_same _ _ _ _ Hres Hcache). cbn [events_of result fst snd].
    split; [by rewrite sent_app, Hsent|].
    destruct st as [ts cache]; simpl in *. by rewrite Hcache.
  - rewrite (sent_cycle_failure_new _ _ _ _ Hres Hcache), Hsent.
    split; [done|]. by rewrite (cycle_failure_new _ _ _ _ Hres Hcache).
Qed.

(** ** Startup *)

(** X12. With the three values present, [main] logs the debug text of
    [check_tokens] and the critical text of its own branch, then builds
    the bot. If that raises, [main] ends with the exception, having made
    no request and sent nothing. Otherwise the loop starts with the
    startup time as cursor and no stored error: the first request carries
    the startup time. *)
Theorem main_startup (cfg : config) (start : startup_env) (envs : list cycle_env) :
  ¬ unset (PRACTICUM_TOKEN cfg) → ¬ unset (TELEGRAM_TOKEN cfg) →
  ¬ unset (TELEGRAM_CHAT_ID cfg) →
  let greeting := [Log DEBUG "Проверка ключей закончилась успешно";
                   Log CRITICAL "Отсутствуют обязательные переменные"] in
  (∀ e, bot_ctor start = Some e → main cfg start envs = (greeting, Raise e))
  ∧ (bot_ctor start = None →
       main cfg start envs
       = ((greeting ++ events_of (main_loop cfg envs (initial_state start)))%list,
          result (main_loop cfg envs (initial_state start)))
       ∧ (envs ≠ [] →
          head (requests_made (events_of (main cfg start envs)))
          = Some (VInt (now start)))).
Proof.
  intros Hp Ht Hc greeting.
  unfold main. rewrite (check_tokens_all_set cfg Hp Ht Hc), bind_pair; cbv beta.
  cbn [py_truthy negb]. unfold emit. rewrite bind_pair; cbv beta.
  split.
  - intros e He. by rewrite He.
  - intros Hbot. rewrite Hbot, bind_ret. split; [done|].
    intros Hne. cbn [events_of result fst snd].
    destruct envs as [|env rest]; [done|].
    destruct (cycle_returns cfg env (initial_state start)) as [st1 Hcy].
    destruct (main_loop_cons cfg env rest _ st1 Hcy) as [-> _].
    by destruct (cycle_shape cfg env (initial_state start)) as (middle & -> & _).
Qed.

End More.

(** * Concrete runs

    The program run on sample inputs, with [reference_runtime]. *)

Section Runs.
#[local] Existing Instance reference_runtime.

Lemma check_response_spec_witness :
  fails_with (check_response (VList [])) TypeError
  ∧ fails_with (check_response (VDict ∅)) KeyError
  ∧ fails_with (check_response (VDict (<["homeworks" := VStr "none"]> ∅))) TypeError
  ∧ check_response (body_of [] 3000) = ([], Return (VList [])).
Proof.
  split; [|split; [|split]].
  - apply (check_response_spec (VList [])). reflexivity.
  - apply (proj1 (proj2 (check_response_spec (VDict ∅))) ∅); reflexivity.
  - apply (proj1 (proj2 (proj2 (check_response_spec
             (VDict (<["homeworks" := VStr "none"]> ∅)))))
             (<["homeworks" := VStr "none"]> ∅) (VStr "none")); reflexivity.
  - apply (proj2 (proj2 (proj2 (check_response_spec (body_of [] 3000))))
             (<["homeworks" := VList []]> (<["form_date" := VInt 3000]> ∅)) []);
      reflexivity.
Defined.

Lemma parse_status_spec_witness :
  parse_status (VDict ∅) = ([], Raise (raised KeyError no_name_msg))
  ∧ parse_status (VDict (<["homework_name" := VStr "hw1"]> ∅))
    = ([], Raise (raised KeyError no_status_msg))
  ∧ parse_status (record_of (VStr "hw2") (VStr "weird"))
    = ([], Raise (raised KeyError bad_status_msg))
  ∧ parse_status (record_of (VStr "hw1") (VStr "rejected"))
    = ([], Return (status_message (VStr "hw1")
                     (VStr "Работа проверена: у ревьюера есть замечания."))).
Proof.
  split; [|split; [|split]].
  - apply (proj1 (parse_status_spec ∅)). reflexivity.
  - apply (proj1 (proj2 (parse_status_spec (<["homework_name" := VStr "hw1"]> ∅)))).
    + exists (VStr "hw1"). reflexivity.
    + reflexivity.
  - apply (proj1 (proj2 (proj2 (proj2 (parse_status_spec
             (<["homework_name" := VStr "hw2"]> (<["status" := VStr "weird"]> ∅))))))
             (VStr "hw2") (VStr "weird")); first [reflexivity | discriminate].
  - apply (proj1 (proj2 (proj2 (proj2 (proj2 (parse_status_spec
             (<["homework_name" := VStr "hw1"]> (<["status" := VStr "rejected"]> ∅)))))))
             (VStr "hw1") "rejected"
             "Работа проверена: у ревьюера есть замечания."); reflexivity.
Defined.

(** C3, the claim as stated fails: a record whose status is a list is
    not answered with the undocumented-status error, nor with any
    [KeyError]; the lookup in [HOMEWORK_VERDICTS] raises [TypeError]. *)
Lemma parse_status_unhashable_status :
  ¬ (∀ (d : gmap string value) (name status : value),
       d !! "homework_name" = Some name → d !! "status" = Some status →
       status ≠ VStr "approved" → status ≠ VStr "reviewing" →
       status ≠ VStr "rejected" →
       fails_with (parse_status (VDict d)) KeyError).
Proof.
  intros Hclaim.
  destruct (Hclaim (<["homework_name" := VStr "hw1"]> (<["status" := VList []]> ∅))
              (VStr "hw1") (VList [])) as [arg Harg];
    [reflexivity|reflexivity|discriminate..|].
  vm_compute in Harg. discriminate Harg.
Qed.

Example parse_status_list_status :
  result (parse_status (record_of (VStr "hw1") (VList [])))
  = Raise (raised TypeError "unhashable type: 'list'").
Proof. reflexivity. Qed.

Lemma get_api_answer_failure_run :
  get_api_answer_try unreachable (VInt 0)
  = ([HttpGet (VInt 0)], None,
     Raise (Exn RequestException (VStr "connection refused")))
  ∧ events_of (get_api_answer (status_only 500) (VInt 0))
    = [HttpGet (VInt 0);
       Log ERROR ("Произошла ошибка: Сбой при обращении к URL "
                  ++ "https://practicum.yandex.ru/api/user_api/homework_statuses/")]
  ∧ result (cycle_try all_set unreachable (initial_state (started_at 0)))
    = Raise unbound_response_data.
Proof.
  pose proof (get_api_answer_failure all_set unreachable
                (initial_state (started_at 0))) as (Hraise & _ & Hfail).
  pose proof (get_api_answer_failure all_set (status_only 500)
                (initial_state (started_at 0))) as (_ & Hstatus & _).
  split; [|split].
  - apply (Hraise (Exn RequestException (VStr "connection refused"))). reflexivity.
  - apply (Hstatus {| status_code := 500;
                      request_url := "https://practicum.yandex.ru/api/user_api/homework_statuses/";
                      json := inr VNone |}); [reflexivity|discriminate].
  - apply Hfail. left. eexists. reflexivity.
Defined.

(** C1. The code at the failing inputs. The request does not get
    through, or is answered with status 500: the handler logs the error
    and does not raise it again, as C1 says, but [get_api_answer] does not
    return. Its last line reads [response_data], which these paths never
    assign, and raises; the loop receives that exception and reports it
    as a failure. The path of a body without [form_date] does log and
    return, because there [response_data] is assigned before the raise. *)
Theorem get_api_answer_unreachable_raises :
  get_api_answer unreachable (VInt 0)
  = ([HttpGet (VInt 0); Log ERROR "Ошибка отправки запроса. connection refused"],
     Raise unbound_response_data)
  ∧ get_api_answer (status_only 500) (VInt 0)
    = ([HttpGet (VInt 0);
        Log ERROR ("Произошла ошибка: Сбой при обращении к URL "
                   ++ "https://practicum.yandex.ru/api/user_api/homework_statuses/")],
       Raise unbound_response_data)
  ∧ exn_cls unbound_response_data = UnboundLocalError
  ∧ sent (events_of (cycle all_set unreachable (initial_state (started_at 0))))
    = [failure_message unbound_response_data]
  ∧ result (get_api_answer (answers (VDict (<["homeworks" := VList []]> ∅))) (VInt 0))
    = Return (VDict (<["homeworks" := VList []]> ∅)).
Proof. repeat split. Qed.

(** Hence it is not true that [get_api_answer] returns on every failed
    request. *)
Lemma get_api_answer_does_not_return :
  ¬ (∀ (env : cycle_env) (ts : value),
       fetch_fails env ts → ∃ v, result (get_api_answer env ts) = Return v).
Proof.
  intros Hclaim.
  destruct (Hclaim unreachable (VInt 0)) as [v Hv].
  - left. eexists. reflexivity.
  - vm_compute in Hv. discriminate Hv.
Qed.

(** The failure does reach the handler of the loop, as the exception
    raised by [return response_data]. *)
Example unreachable_cycle :
  sent (events_of (cycle all_set unreachable (initial_state (started_at 0))))
  = ["Сбой в работе программы: cannot access local variable 'response_data' where it is not associated with a value"]
  ∧ sent (events_of (cycle all_set (status_only 500) (initial_state (started_at 0))))
    = ["Сбой в работе программы: cannot access local variable 'response_data' where it is not associated with a value"].
Proof. split; reflexivity. Qed.

Lemma get_api_answer_no_form_date_witness :
  get_api_answer (answers (VDict (<["homeworks" := VList []]> ∅))) (VInt 0)
  = ([HttpGet (VInt 0); Log DEBUG "Ответ от сервера получен";
      Log ERROR ("Произошла ошибка: " ++ no_form_date_msg)],
     Return (VDict (<["homeworks" := VList []]> ∅)))
  ∧ logged ERROR (events_of
      (get_api_answer (answers (VDict (<["homeworks" := VList []]> ∅))) (VInt 0)))
    = ["Произошла ошибка: Отсутствует параметр `form_date`"].
Proof.
  apply (get_api_answer_no_form_date
           (answers (VDict (<["homeworks" := VList []]> ∅))) (VInt 0)).
  - eexists. split; [reflexivity|]. split; reflexivity.
  - left. eexists. split; reflexivity.
Defined.

Lemma cycle_scenario_approved_witness :
  let env := answers (body_of [record_of (VStr "hw1") (VStr "approved")] 1000) in
  let st := initial_state (started_at 0) in
  sent (events_of (cycle all_set env st))
  = ["Изменился статус проверки работы " ++ dquote ++ "hw1" ++ dquote
     ++ ". Работа проверена: ревьюеру всё понравилось. Ура!"]
  ∧ result (cycle all_set env st)
    = Return {| timestamp := VInt 1000; last_send_error := None |}.
Proof.
  apply (cycle_scenario_approved all_set
           (answers (body_of [record_of (VStr "hw1") (VStr "approved")] 1000))
           (initial_state (started_at 0))).
  eexists. split; [reflexivity|]. split; reflexivity.
Defined.

Lemma failure_dedup_witness :
  let st := initial_state (started_at 0) in
  let none := answers (body_of [] 3000) in
  let missing := failure_message (raised KeyError no_name_msg) in
  let unbound := failure_message unbound_response_data in
  failure_sent (events_of (main_loop all_set [none; none] st)) = [missing]
  ∧ failure_sent (events_of (main_loop all_set [none; unreachable] st))
    = [missing; unbound]
  ∧ result (main_loop all_set [none; unreachable] st)
    = Return {| timestamp := VInt 0; last_send_error := Some unbound |}.
Proof.
  intros st none missing unbound.
  pose proof (failure_dedup all_set none none st
                {| timestamp := VInt 0; last_send_error := Some missing |}
                (raised KeyError no_name_msg) (raised KeyError no_name_msg))
    as (_ & _ & Hsame & _ & _);
    [reflexivity|reflexivity|reflexivity|discriminate|].
  pose proof (failure_dedup all_set none unreachable st
                {| timestamp := VInt 0; last_send_error := Some missing |}
                (raised KeyError no_name_msg) unbound_response_data)
    as (_ & _ & _ & Hdiff & Hend);
    [reflexivity|reflexivity|reflexivity|discriminate|].
  split; [|split].
  - apply Hsame. reflexivity.
  - apply Hdiff. discriminate.
  - exact Hend.
Defined.

(** C5, the claim as stated fails, in two ways. A cycle may send the
    status notification and then fail (here the answer has a homework but
    no [form_date]): two such cycles in a row fail with the same error text
    and call the notifier three times. And when the text of the failure is
    already the stored error, two cycles failing with that text do not call
    the notifier at all. *)
Lemma failing_cycles_notifier_calls :
  ¬ (∀ (cfg : config) (env1 env2 : cycle_env) (st st1 : loop_state) (e1 e2 : exn),
       result (cycle_try cfg env1 st) = Raise e1 →
       result (cycle cfg env1 st) = Return st1 →
       result (cycle_try cfg env2 st1) = Raise e2 →
       str_exn e1 = str_exn e2 →
       length (sent (events_of (main_loop cfg [env1; env2] st))) = 1)
  ∧ ¬ (∀ (cfg : config) (env1 env2 : cycle_env) (st st1 : loop_state) (e1 e2 : exn),
         result (cycle_try cfg env1 st) = Raise e1 →
         result (cycle cfg env1 st) = Return st1 →
         result (cycle_try cfg env2 st1) = Raise e2 →
         str_exn e1 = str_exn e2 →
         length (failure_sent (events_of (main_loop cfg [env1; env2] st))) = 1).
Proof.
  split; intros Hclaim.
  - pose proof (Hclaim all_set
      (answers (VDict (<["homeworks" := VList [record_of (VStr "hw1") (VStr "approved")]]> ∅)))
      (answers (VDict (<["homeworks" := VList [record_of (VStr "hw1") (VStr "approved")]]> ∅)))
      (initial_state (started_at 0))
      {| timestamp := VInt 0;
         last_send_error := Some (failure_message (Exn KeyError (VStr "form_date"))) |}
      (Exn KeyError (VStr "form_date")) (Exn KeyError (VStr "form_date"))
      eq_refl eq_refl eq_refl eq_refl) as Hone.
    vm_compute in Hone. discriminate Hone.
  - pose proof (Hclaim all_set unreachable unreachable
      {| timestamp := VInt 0;
         last_send_error := Some (failure_message unbound_response_data) |}
      {| timestamp := VInt 0;
         last_send_error := Some (failure_message unbound_response_data) |}
      unbound_response_data unbound_response_data
      eq_refl eq_refl eq_refl eq_refl) as Hone.
    vm_compute in Hone. discriminate Hone.
Qed.

Example no_form_date_cycles :
  sent (events_of (main_loop all_set
    [answers (VDict (<["homeworks" := VList [record_of (VStr "hw1") (VStr "approved")]]> ∅));
     answers (VDict (<["homeworks" := VList [record_of (VStr "hw1") (VStr "approved")]]> ∅))]
    (initial_state (started_at 0))))
  = ["Изменился статус проверки работы " ++ dquote ++ "hw1" ++ dquote
     ++ ". Работа проверена: ревьюеру всё понравилось. Ура!";
     "Сбой в работе программы: 'form_date'";
     "Изменился статус проверки работы " ++ dquote ++ "hw1" ++ dquote
     ++ ". Работа проверена: ревьюеру всё понравилось. Ура!"].
Proof. reflexivity. Qed.

Lemma empty_homeworks_fail_witness :
  let st := initial_state (started_at 0) in
  let none := answers (body_of [] 3000) in
  let message := failure_message (raised KeyError no_name_msg) in
  parse_status (VList []) = ([], Raise (raised KeyError no_name_msg))
  ∧ result (cycle_try all_set none st) = Raise (raised KeyError no_name_msg)
  ∧ sent (events_of (cycle all_set none st)) = [message]
  ∧ sent (events_of (main_loop all_set [none; none; none] st)) = [message]
  ∧ result (main_loop all_set [none; none; none] st)
    = Return {| timestamp := VInt 0; last_send_error := Some message |}.
Proof.
  intros st none message.
  assert (Hnone : answers_no_homework (VInt 0) none).
  { exists (<["homeworks" := VList []]> (<["form_date" := VInt 3000]> ∅)).
    split; [|reflexivity]. eexists. split; [reflexivity|]. split; reflexivity. }
  apply (empty_homeworks_fail all_set none [none; none] st).
  repeat constructor; exact Hnone.
Defined.

(** C7, the claim as stated fails: in a cycle that finds the failure
    text of the empty list already stored as the last error, the empty
    list sends nothing at all; the cycle only makes the request, logs the
    answer at debug level and sleeps. *)
Lemma empty_cycle_cached_silent :
  ¬ (∀ (cfg : config) (env : cycle_env) (st : loop_state),
       answers_no_homework (timestamp st) env →
       sent (events_of (cycle cfg env st))
       = [failure_message (raised KeyError no_name_msg)]).
Proof.
  intros Hclaim.
  pose proof (Hclaim all_set (answers (body_of [] 3000))
    {| timestamp := VInt 0;
       last_send_error := Some (failure_message (raised KeyError no_name_msg)) |})
    as Hsent.
  assert (Hnone : answers_no_homework (VInt 0) (answers (body_of [] 3000))).
  { exists (<["homeworks" := VList []]> (<["form_date" := VInt 3000]> ∅)).
    split; [|reflexivity]. eexists. split; [reflexivity|]. split; reflexivity. }
  specialize (Hsent Hnone). vm_compute in Hsent. discriminate Hsent.
Qed.

Example empty_cycle_cached_events :
  events_of (cycle all_set (answers (body_of [] 3000))
    {| timestamp := VInt 0;
       last_send_error := Some (failure_message (raised KeyError no_name_msg)) |})
  = [HttpGet (VInt 0); Log DEBUG "Ответ от сервера получен"; Sleep 600].
Proof. reflexivity. Qed.

Lemma error_cache_persists_witness :
  let none := answers (body_of [] 3000) in
  let approved := answers (body_of [record_of (VStr "hw1") (VStr "approved")] 1000) in
  let message := failure_message (raised KeyError no_name_msg) in
  let st' := {| timestamp := VInt 1000; last_send_error := Some message |} in
  result (main_loop all_set [none; approved] (initial_state (started_at 0)))
  = Return st'
  ∧ failure_sent (events_of (cycle all_set none st')) = []
  ∧ result (cycle all_set none st') = Return st'.
Proof.
  intros none approved message st'. split; [reflexivity|].
  pose proof (error_cache_persists all_set none none [approved]
                (initial_state (started_at 0))
                {| timestamp := VInt 0; last_send_error := Some message |}
                st' (raised KeyError no_name_msg)) as (_ & _ & Hlater);
    [reflexivity|].
  apply Hlater.
  - vm_compute. left.
  - reflexivity.
  - reflexivity.
  - reflexivity.
Defined.

(** C10, the claim as stated fails: after the failure text of the
    empty list has been sent, one cycle failing with another text is
    enough for a later cycle failing with the first text to send it
    again. *)
Lemma repeated_error_sent_again :
  ¬ (∀ (cfg : config) (env0 env : cycle_env) (envs : list cycle_env)
       (st0 st st' : loop_state) (error : exn),
       result (cycle cfg env0 st0) = Return st →
       failure_message error ∈ sent (events_of (cycle cfg env0 st0)) →
       result (main_loop cfg envs st) = Return st' →
       result (cycle_try cfg env st') = Raise error →
       sent (events_of (cycle cfg env st')) = []).
Proof.
  intros Hclaim.
  pose proof (Hclaim all_set (answers (body_of [] 3000)) (answers (body_of [] 3000))
    [unreachable] (initial_state (started_at 0))
    {| timestamp := VInt 0;
       last_send_error := Some (failure_message (raised KeyError no_name_msg)) |}
    {| timestamp := VInt 0;
       last_send_error := Some (failure_message unbound_response_data) |}
    (raised KeyError no_name_msg) eq_refl) as Hquiet.
  assert (Hsent : sent (events_of (cycle all_set (answers (body_of [] 3000))
      {| timestamp := VInt 0;
         last_send_error := Some (failure_message unbound_response_data) |})) = []).
  { apply Hquiet; [vm_compute; left|reflexivity|reflexivity]. }
  vm_compute in Hsent. discriminate Hsent.
Qed.

Example error_sent_again_run :
  sent (events_of (main_loop all_set
    [answers (body_of [] 3000); unreachable; answers (body_of [] 3000)]
    (initial_state (started_at 0))))
  = ["Сбой в работе программы: 'В ответе API домашки нет ключа `homework_name`.'";
     "Сбой в работе программы: cannot access local variable 'response_data' where it is not associated with a value";
     "Сбой в работе программы: 'В ответе API домашки нет ключа `homework_name`.'"].
Proof. reflexivity. Qed.

Lemma check_tokens_halts_witness :
  let cfg := {| PRACTICUM_TOKEN := None; TELEGRAM_TOKEN := Some "";
                TELEGRAM_CHAT_ID := Some "42" |} in
  (result (check_tokens cfg) = Exit
   ∧ missing_msg "PRACTICUM_TOKEN" ∈ logged CRITICAL (events_of (check_tokens cfg))
   ∧ missing_msg "TELEGRAM_TOKEN" ∈ logged CRITICAL (events_of (check_tokens cfg))
   ∧ (missing_msg "TELEGRAM_CHAT_ID" ∉ logged CRITICAL (events_of (check_tokens cfg)))
   ∧ existsb is_network (events_of (main cfg (started_at 0) [unreachable])) = false)
  ∧ check_tokens all_set
    = ([Log DEBUG "Проверка ключей закончилась успешно"], Return VNone).
Proof.
  intros cfg. split.
  - destruct (proj1 (check_tokens_halts cfg (started_at 0) [unreachable]))
      as (Hexit & Hp & Ht & Hc & _ & Hnet).
    { left. left. reflexivity. }
    split; [exact Hexit|]. split; [|split; [|split; [|exact Hnet]]].
    + apply Hp. left. reflexivity.
    + apply Ht. right. reflexivity.
    + intros Hin. apply Hc in Hin. destruct Hin as [Hin|Hin]; discriminate Hin.
  - apply (proj2 (check_tokens_halts all_set (started_at 0) []));
      intros [Hu|Hu]; discriminate Hu.
Defined.

Lemma check_tokens_returns_none_witness :
  (∃ rest, events_of (main all_set (started_at 0) [unreachable])
           = Log DEBUG "Проверка ключей закончилась успешно"
             :: Log CRITICAL "Отсутствуют обязательные переменные" :: rest)
  ∧ result (main {| PRACTICUM_TOKEN := None; TELEGRAM_TOKEN := Some "1:t";
                    TELEGRAM_CHAT_ID := Some "42" |} (started_at 0) [unreachable])
    = Exit.
Proof.
  split.
  - apply (proj1 (proj2 (proj2 (check_tokens_returns_none all_set (started_at 0)
                                  [unreachable]))));
      intros [Hu|Hu]; discriminate Hu.
  - apply (proj2 (proj2 (proj2 (check_tokens_returns_none
             {| PRACTICUM_TOKEN := None; TELEGRAM_TOKEN := Some "1:t";
                TELEGRAM_CHAT_ID := Some "42" |} (started_at 0) [unreachable])))).
    left. left. reflexivity.
Defined.

End Runs.

(** * Further concrete runs *)

Section MoreRuns.
#[local] Existing Instance reference_runtime.

Lemma get_api_answer_returns_iff_witness :
  result (get_api_answer (answers (VInt 5)) (VInt 0)) = Return (VInt 5)
  ∧ result (get_api_answer garbled (VInt 0)) = Raise unbound_response_data.
Proof.
  split.
  - apply (proj1 (get_api_answer_returns_iff (answers (VInt 5)) (VInt 0))).
    eexists. split; [reflexivity|]. split; reflexivity.
  - apply (proj1 (proj2 (get_api_answer_returns_iff garbled (VInt 0)))).
    intros (body & r & Hr & _ & Hjson). injection Hr as <-. discriminate Hjson.
Defined.

Lemma parse_status_returns_only_witness :
  (∃ message,
     result (parse_status (record_of (VStr "hw1") (VStr "reviewing")))
     = Return message)
  ∧ (∃ error, result (parse_status (VStr "homework_name status")) = Raise error)
  ∧ (∃ error,
       result (parse_status (record_of (VStr "hw1") (VStr "Approved")))
       = Raise error).
Proof.
  split; [|split].
  - apply (proj1 (proj2 (parse_status_returns_only
                           (record_of (VStr "hw1") (VStr "reviewing"))))).
    exists (<["homework_name" := VStr "hw1"]> (<["status" := VStr "reviewing"]> ∅)),
      (VStr "hw1"), "reviewing".
    split; [reflexivity|]. split; [reflexivity|]. split; [reflexivity|].
    right. left. reflexivity.
  - apply (proj1 (proj2 (proj2 (parse_status_returns_only
                                  (VStr "homework_name status"))))).
    intros (d & name & code & Hd & _). discriminate Hd.
  - apply (proj1 (proj2 (proj2 (parse_status_returns_only
                                  (record_of (VStr "hw1") (VStr "Approved")))))).
    intros (d & name & code & Hd & _ & Hs & Hcode).
    injection Hd as <-. vm_compute in Hs. injection Hs as <-.
    destruct Hcode as [Hc|[Hc|Hc]]; discriminate Hc.
Defined.

Lemma cursor_from_server_witness :
  let env := answers (body_of [record_of (VStr "hw1") (VStr "approved")] 1000) in
  let st := initial_state (started_at 0) in
  let st' := {| timestamp := VInt 1000; last_send_error := None |} in
  result (cycle_try all_set env st) = Return (timestamp st')
  ∧ (∀ error, result (cycle_try all_set (answers (body_of [] 3000)) st)
              = Raise error →
       timestamp {| timestamp := VInt 0;
                    last_send_error := Some (failure_message
                                               (raised KeyError no_name_msg)) |}
       = timestamp st).
Proof.
  intros env st st'. split.
  - apply (cursor_from_server all_set env st st'); [reflexivity|discriminate].
  - apply (cursor_from_server all_set (answers (body_of [] 3000)) st).
    reflexivity.
Defined.

Lemma send_outcome_irrelevant_witness :
  let envs := [answers (body_of [] 3000); unreachable;
               answers (body_of [record_of (VStr "hw1") (VStr "approved")] 1000)] in
  let st := initial_state (started_at 0) in
  sent (events_of (main_loop all_set envs st))
  = sent (events_of (main_loop all_set (chat_down <$> envs) st))
  ∧ result (main_loop all_set envs st)
    = result (main_loop all_set (chat_down <$> envs) st).
Proof.
  intros envs st. apply (send_outcome_irrelevant all_set envs (chat_down <$> envs) st).
  repeat constructor.
Defined.

Lemma only_first_homework_witness :
  let one := record_of (VStr "hw1") (VStr "approved") in
  let two := record_of (VStr "hw2") (VStr "rejected") in
  let st := initial_state (started_at 0) in
  sent (events_of (cycle all_set (answers (body_of [one; two] 1000)) st))
  = sent (events_of (cycle all_set (answers (body_of [one] 1000)) st))
  ∧ result (cycle all_set (answers (body_of [one; two] 1000)) st)
    = result (cycle all_set (answers (body_of [one] 1000)) st).
Proof.
  intros one two st.
  apply (only_first_homework all_set
           (answers (body_of [one; two] 1000)) (answers (body_of [one] 1000)) st
           (<["homeworks" := VList [one; two]]> (<["form_date" := VInt 1000]> ∅))
           (<["homeworks" := VList [one]]> (<["form_date" := VInt 1000]> ∅))
           one [two] []).
  - eexists. split; [reflexivity|]. split; reflexivity.
  - eexists. split; [reflexivity|]. split; reflexivity.
  - reflexivity.
  - reflexivity.
  - reflexivity.
Defined.

Lemma fetch_failures_notified_once_witness :
  let st := initial_state (started_at 0) in
  let message := failure_message unbound_response_data in
  sent (events_of (main_loop all_set [unreachable; status_only 500; garbled] st))
  = [message]
  ∧ result (main_loop all_set [unreachable; status_only 500; garbled] st)
    = Return {| timestamp := VInt 0; last_send_error := Some message |}.
Proof.
  intros st message.
  apply (fetch_failures_notified_once all_set unreachable
           [status_only 500; garbled] st).
  - repeat constructor.
    + intros (body & r & Hr & _). discriminate Hr.
    + intros (body & r & Hr & Hcode & _). injection Hr as <-. discriminate Hcode.
    + intros (body & r & Hr & _ & Hjson). injection Hr as <-. discriminate Hjson.
  - discriminate.
Defined.

Lemma status_sent_every_cycle_witness :
  let one := record_of (VStr "hw1") (VStr "approved") in
  let lost := answers (VDict (<["homeworks" := VList [one]]> ∅)) in
  status_sent (events_of (main_loop all_set [lost; answers (body_of [one] 1000); lost]
                            (initial_state (started_at 0))))
  = replicate 3 (status_message (VStr "hw1")
                   (VStr "Работа проверена: ревьюеру всё понравилось. Ура!")).
Proof.
  intros one lost.
  apply (status_sent_every_cycle all_set
           [lost; answers (body_of [one] 1000); lost]
           (initial_state (started_at 0)) one).
  - reflexivity.
  - repeat constructor; intros ts; eexists _, [];
      (split; [eexists; split; [reflexivity|split; reflexivity]|reflexivity]).
Defined.

Lemma rejected_answer_fails_witness :
  let env := answers (body_of [record_of (VStr "hw2") (VStr "weird")] 2000) in
  let st := initial_state (started_at 0) in
  let error := raised KeyError bad_status_msg in
  result (cycle_try all_set env st) = Raise error
  ∧ sent (events_of (cycle all_set env st)) = [failure_message error]
  ∧ result (cycle all_set env st)
    = Return {| timestamp := VInt 0;
                last_send_error := Some (failure_message error) |}.
Proof.
  intros env st error.
  apply (rejected_answer_fails all_set env st
           (body_of [record_of (VStr "hw2") (VStr "weird")] 2000) error).
  - eexists. split; [reflexivity|]. split; reflexivity.
  - right. eexists _, _, []. split; [reflexivity|]. split; reflexivity.
Defined.

Lemma main_startup_witness :
  main all_set {| bot_ctor := Some (raised (OtherException "InvalidToken") "Invalid token");
                  now := 7 |} [unreachable]
  = ([Log DEBUG "Проверка ключей закончилась успешно";
      Log CRITICAL "Отсутствуют обязательные переменные"],
     Raise (raised (OtherException "InvalidToken") "Invalid token"))
  ∧ head (requests_made (events_of (main all_set (started_at 7) [unreachable])))
    = Some (VInt 7).
Proof.
  split.
  - apply (proj1 (main_startup all_set
                    {| bot_ctor := Some (raised (OtherException "InvalidToken")
                                           "Invalid token");
                       now := 7 |} [unreachable]
                    ltac:(intros [Hu|Hu]; discriminate Hu)
                    ltac:(intros [Hu|Hu]; discriminate Hu)
                    ltac:(intros [Hu|Hu]; discriminate Hu))).
    reflexivity.
  - apply (proj2 (main_startup all_set (started_at 7) [unreachable]
                    ltac:(intros [Hu|Hu]; discriminate Hu)
                    ltac:(intros [Hu|Hu]; discriminate Hu)
                    ltac:(intros [Hu|Hu]; discriminate Hu))).
    + reflexivity.
    + discriminate.
Defined.

End MoreRuns.
